(** * PyRTL memories: a shallow embedding of [pyrtl/memory.py]

    The file embeds the three classes of [memory.py] ([_MemReadBase],
    [MemBlock], [RomBlock]) and the helper value types ([_MemIndexed],
    [_MemAssignment], [EnabledWrite]) as functions over an explicit Python
    store, and proves the properties the specification states about them.

    Python objects are mutable and shared: a memory owns two lists of port
    nets that grow as the circuit is described, and every port is also
    registered in the block (netlist) the memory is bound to.  The store
    therefore keeps the port lists and the blocks' nets, keyed by object
    identity, and every method is a computation in a state-and-exception
    monad: an exception leaves the store as it was at the [raise], exactly
    as in Python (nothing is rolled back). *)

From Stdlib Require Import ZArith String Ascii List DecimalString.
From stdpp Require Import base gmap strings list.

Local Open Scope Z_scope.

(** ** Exceptions and outcomes *)

(** What Python code can raise, by class.  [PyrtlError] and
    [PyrtlInternalError] are the two classes of [core]; [TypeError],
    [IndexError] and [AttributeError] are Python's own; [OtherException cls]
    is an instance of any other class [cls] that derives from [Exception]
    (ZeroDivisionError, KeyError, ValueError, a class of the user's, ...).
    The remaining constructors are the objects that are not instances of
    [Exception]: [KeyboardInterrupt], [SystemExit] and [GeneratorExit],
    which derive from [BaseException] directly, and [OtherBaseException cls],
    an instance of any other class that does not derive from [Exception] (a
    direct subclass of [BaseException], or an old-style class). *)
Inductive exn : Type :=
| PyrtlError (msg : string)
| PyrtlInternalError (msg : string)
| TypeError
| IndexError
| AttributeError (attr : string)
| OtherException (cls : string)
| KeyboardInterrupt
| SystemExit
| GeneratorExit
| OtherBaseException (cls : string).

(** [isinstance(e, Exception)]: what an [except Exception] clause catches.
    It holds of the instances of [Exception] and of its subclasses, and of
    nothing else that is raised. *)
Definition isinstance_Exception (e : exn) : bool :=
  match e with
  | PyrtlError _ | PyrtlInternalError _ | TypeError | IndexError
  | AttributeError _ | OtherException _ => true
  | KeyboardInterrupt | SystemExit | GeneratorExit | OtherBaseException _ => false
  end.

Inductive outcome (A : Type) : Type :=
| Ret (a : A)
| Raise (e : exn).
Arguments Ret {A} a.
Arguments Raise {A} e.

(** Python's [str] on an integer. *)
Definition str (z : Z) : string := NilZero.string_of_int (Z.to_int z).

(** The double quote character, for the one message that contains it. *)
Definition dquote : string := String "034"%char EmptyString.

(** The message of [MemBlock.__setitem__]: error, assigment to memories
    should use (quoted) <<= not (quoted) = operator. *)
Definition plain_assignment_message : string :=
  "error, assigment to memories should use " +:+ dquote +:+ "<<=" +:+ dquote
  +:+ " not " +:+ dquote +:+ "=" +:+ dquote +:+ " operator".

(** ** Signals and nets (types of [wire] and [core]) *)

(** Blocks and memories are Python objects: each is known by its identity. *)
Abbreviation block_ref := nat (only parsing).
Abbreviation mem_ref := nat (only parsing).

(** A [wire.WireVector] is identified by the object itself ([uid]); a
    [wire.Const] carries its value.  Both have a bitwidth and a block. *)
Inductive WireVector : Type :=
| Wire (uid : nat) (bitwidth : Z) (block : block_ref)
| Const (val : Z) (bitwidth : Z) (block : block_ref).

(** [len(w)] of a wire vector is its bitwidth. *)
Definition len (w : WireVector) : Z :=
  match w with
  | Wire _ bw _ => bw
  | Const _ bw _ => bw
  end.

(** The data source of a [RomBlock]: [self.data] is either a Python function
    (an instance of [types.FunctionType]), which may raise, or some other
    object; of the latter we distinguish sequences (lists, tuples) from
    objects that cannot be subscripted at all. *)
Inductive RomData : Type :=
| DataFunction (f : Z -> outcome Z)
| DataSequence (l : list Z)
| DataUnsubscriptable.

Inductive MemClass : Type := C_MemReadBase | C_MemBlock | C_RomBlock.

(** The attributes [__init__] binds once and nothing in [memory.py] rebinds.
    [ref] is the identity of the Python object; the two port lists, which
    are mutated in place, live in the store under that identity.  [data] is
    bound by [RomBlock.__init__] only. *)
Record Memory : Type := {
  ref : mem_ref;
  cls : MemClass;
  block : block_ref;
  bitwidth : Z;
  name : string;
  addrwidth : Z;
  id : Z;
  data : option RomData
}.

(** [core.LogicNet], a named tuple [(op, op_param, args, dests)]. *)
Record LogicNet : Type := {
  op : string;
  op_param : option (Z * Memory);
  args : list WireVector;
  dests : list WireVector
}.

(** [_MemIndexed]: the handle [mem[index]]. *)
Record _MemIndexed : Type := { mem : Memory; index : WireVector }.

(** The Python values that reach [memory.py] as keys, addresses, data and
    enables.  [VMemAssignment] is the named tuple [_MemAssignment],
    [VEnabledWrite] the named tuple [MemBlock.EnabledWrite]. *)
Inductive value : Type :=
| VNone
| VInt (n : Z)
| VStr (s : string)
| VWire (w : WireVector)
| VMemIndexed (h : _MemIndexed)
| VEnabledWrite (data enable : value)
| VMemAssignment (rhs : value) (is_conditional : bool).

(** ** The store *)

Record State : Type := {
  working : block_ref;
  logic : gmap block_ref (list LogicNet);
  next_obj : nat;
  tempvar_num : Z;
  memid_num : Z;
  readport_nets : gmap mem_ref (list LogicNet);
  writeport_nets : gmap mem_ref (list LogicNet)
}.

Definition set_logic (f : gmap block_ref (list LogicNet) -> gmap block_ref (list LogicNet))
    (st : State) : State :=
  {| working := working st; logic := f (logic st); next_obj := next_obj st;
     tempvar_num := tempvar_num st; memid_num := memid_num st;
     readport_nets := readport_nets st; writeport_nets := writeport_nets st |}.

Definition set_next_obj (n : nat) (st : State) : State :=
  {| working := working st; logic := logic st; next_obj := n;
     tempvar_num := tempvar_num st; memid_num := memid_num st;
     readport_nets := readport_nets st; writeport_nets := writeport_nets st |}.

Definition set_tempvar_num (n : Z) (st : State) : State :=
  {| working := working st; logic := logic st; next_obj := next_obj st;
     tempvar_num := n; memid_num := memid_num st;
     readport_nets := readport_nets st; writeport_nets := writeport_nets st |}.

Definition set_memid_num (n : Z) (st : State) : State :=
  {| working := working st; logic := logic st; next_obj := next_obj st;
     tempvar_num := tempvar_num st; memid_num := n;
     readport_nets := readport_nets st; writeport_nets := writeport_nets st |}.

Definition set_readport_nets (f : gmap mem_ref (list LogicNet) -> gmap mem_ref (list LogicNet))
    (st : State) : State :=
  {| working := working st; logic := logic st; next_obj := next_obj st;
     tempvar_num := tempvar_num st; memid_num := memid_num st;
     readport_nets := f (readport_nets st); writeport_nets := writeport_nets st |}.

Definition set_writeport_nets (f : gmap mem_ref (list LogicNet) -> gmap mem_ref (list LogicNet))
    (st : State) : State :=
  {| working := working st; logic := logic st; next_obj := next_obj st;
     tempvar_num := tempvar_num st; memid_num := memid_num st;
     readport_nets := readport_nets st; writeport_nets := f (writeport_nets st) |}.

(** The nets of block [b], in the order they were added. *)
Definition nets (st : State) (b : block_ref) : list LogicNet := logic st !!! b.

(** ** The monad of Python computations *)

Definition M (A : Type) : Type := State -> outcome A * State.

Definition ret {A : Type} (a : A) : M A := fun st => (Ret a, st).

Definition raise {A : Type} (e : exn) : M A := fun st => (Raise e, st).

Definition bind {A B : Type} (m : M A) (k : A -> M B) : M B :=
  fun st =>
    match m st with
    | (Ret a, st') => k a st'
    | (Raise e, st') => (Raise e, st')
    end.

Declare Scope py_scope.
Delimit Scope py_scope with py.
Notation "x <- c1 ;; c2" := (bind c1 (fun x => c2))
  (at level 100, c1 at next level, right associativity) : py_scope.
Notation "c1 ;;; c2" := (bind c1 (fun _ => c2))
  (at level 100, right associativity) : py_scope.
Local Open Scope py_scope.

(** ** The netlist container and the signal constructors

    [core] and [wire] are not part of this file's source; what follows is
    the little of them that [memory.py] calls. *)

(** Object allocation: a fresh identity. *)
Definition alloc : M nat :=
  fun st => (Ret (next_obj st), set_next_obj (S (next_obj st)) st).

(** Modelled from the spec: [core.working_block(block)], the given netlist,
    or the ambient one when none is given ("implicit shared construction
    context"). *)
Definition working_block (blk : option block_ref) : M block_ref :=
  fun st => (Ret (match blk with Some b => b | None => working st end), st).

(** Modelled from the spec: [core.next_tempvar_name(name)], the netlist's
    [nextName(hint?)]: "assigns or generates a unique name". *)
Definition next_tempvar_name (nm : option string) : M string :=
  match nm with
  | Some n => ret n
  | None =>
      fun st => (Ret ("tmp" +:+ str (tempvar_num st)),
                 set_tempvar_num (tempvar_num st + 1) st)
  end.

(** Modelled from the spec: [core.next_memid()], the netlist's [nextId()]:
    "allocates a netlist-unique identifier". *)
Definition next_memid : M Z :=
  fun st => (Ret (memid_num st), set_memid_num (memid_num st + 1) st).

(** Modelled from the spec: [block.add_net(net)], the netlist's
    [addNode(node)]. *)
Definition add_net (b : block_ref) (net : LogicNet) : M unit :=
  fun st => (Ret tt, set_logic (fun l => <[b := (l !!! b) ++ [net]]> l) st).

(** Modelled from the spec: [wire.WireVector(bitwidth=..., block=...)], "a
    fresh output signal" with a "stable identity inside the netlist". *)
Definition new_WireVector (bw : Z) (b : block_ref) : M WireVector :=
  u <- alloc ;; ret (Wire u bw b).

(** [self.readport_nets = l] and [self.writeport_nets = l]. *)
Definition bind_readport_nets (r : mem_ref) (l : list LogicNet) : M unit :=
  fun st => (Ret tt, set_readport_nets (fun m => <[r := l]> m) st).

Definition bind_writeport_nets (r : mem_ref) (l : list LogicNet) : M unit :=
  fun st => (Ret tt, set_writeport_nets (fun m => <[r := l]> m) st).

(** [self.readport_nets.append(net)]; an object without the attribute
    raises [AttributeError]. *)
Definition readport_nets_append (r : mem_ref) (net : LogicNet) : M unit :=
  fun st =>
    match readport_nets st !! r with
    | Some l => (Ret tt, set_readport_nets (fun m => <[r := l ++ [net]]> m) st)
    | None => (Raise (AttributeError "readport_nets"), st)
    end.

Definition writeport_nets_append (r : mem_ref) (net : LogicNet) : M unit :=
  fun st =>
    match writeport_nets st !! r with
    | Some l => (Ret tt, set_writeport_nets (fun m => <[r := l ++ [net]]> m) st)
    | None => (Raise (AttributeError "writeport_nets"), st)
    end.

(** ** The external collaborators

    Two collaborators of the memories are whole components of their own:
    the signal coercion facility [helperfuncs.as_wires] and the conditional
    arbitration component [conditional.ConditionalUpdate].  The memories are
    verified against any implementation of them that honours the contract
    [Lawful] below; a reference implementation is given further down. *)

(** A write port is a net with operation ["@"]. *)
Definition is_writeport (n : LogicNet) : bool := String.eqb (op n) "@".

(** What a coercion never does: it builds no write port. *)
Record keeps_writeports (st st' : State) : Prop := {
  keeps_lists : writeport_nets st' = writeport_nets st;
  keeps_nodes : forall b,
    List.filter is_writeport (nets st' b) = List.filter is_writeport (nets st b)
}.

Class Collaborators : Type := {
  (** [helperfuncs.as_wires(val, bitwidth, truncating, block)] *)
  as_wires : value -> option Z -> bool -> option block_ref -> M WireVector;
  (** [conditional.ConditionalUpdate._build_write_port(mem, addr, data, enable)] *)
  conditional_build_write_port :
    Memory -> WireVector -> WireVector -> WireVector -> M unit
}.

(** [isinstance(val, _MemIndexed)] *)
Definition is_MemIndexed (val : value) : bool :=
  match val with VMemIndexed _ => true | _ => false end.

(** The contract of the coercion facility. *)
Class Lawful (C : Collaborators) : Prop := {
  (** Without truncation, a signal at least as wide as asked for is
      returned as it is, and nothing is built. *)
  as_wires_signal : forall w bw blk st,
    bw <= len w -> as_wires (VWire w) (Some bw) false blk st = (Ret w, st);
  (** Whatever a coercion builds, and whether it returns or raises, it
      builds no write port. *)
  as_wires_keeps : forall v bw t blk st o st',
    as_wires v bw t blk st = (o, st') -> keeps_writeports st st';
  (** Only the coercion of a [_MemIndexed] handle, which is a memory read,
      touches a read-port list. *)
  as_wires_reads : forall v bw t blk st o st',
    is_MemIndexed v = false ->
    as_wires v bw t blk st = (o, st') -> readport_nets st' = readport_nets st
}.

(** ** [class _MemIndexed]

    The methods [logicop], [__invert__], [__getitem__], [sign_extended] and
    [zero_extended] all start with [helperfuncs.as_wires(self)] and then
    call a method of [wire.WireVector]; only their common first step is
    embedded ([as_wires_self]). *)
Module MemIndexed.
Section Methods.
Context `{Collaborators}.

Definition __ilshift__ (self : _MemIndexed) (other : value) : value :=
  VMemAssignment other false.

Definition __ior__ (self : _MemIndexed) (other : value) : value :=
  VMemAssignment other true.

Definition __len__ (self : _MemIndexed) : M Z :=
  ret (bitwidth (mem self)).

Definition as_wires_self (self : _MemIndexed) : M WireVector :=
  as_wires (VMemIndexed self) None true None.

End Methods.
End MemIndexed.

(** ** [class _MemReadBase] *)
Module MemReadBase.
Section Methods.
Context `{Collaborators}.

(** [self] is the object being initialised and [c] its class; the result is
    the record of the attributes bound. *)
Definition __init__ (self : mem_ref) (c : MemClass) (bw aw : Z)
    (nm : option string) (blk : option block_ref) : M Memory :=
  self_block <- working_block blk ;;
  nm' <- next_tempvar_name nm ;;
  if bw <=? 0 then raise (PyrtlError "error, bitwidth must be >= 1") else
  if aw <=? 0 then raise (PyrtlError "error, addrwidth must be >= 1") else
  bind_readport_nets self [] ;;;
  i <- next_memid ;;
  ret {| ref := self; cls := c; block := self_block; bitwidth := bw;
         name := nm'; addrwidth := aw; id := i; data := None |}.

Definition __getitem__ (self : Memory) (item : value) : M _MemIndexed :=
  item' <- as_wires item (Some (addrwidth self)) false (Some (block self)) ;;
  if len item' >? addrwidth self
  then raise (PyrtlError "error, memory index bitwidth > addrwidth")
  else ret {| mem := self; index := item' |}.

Definition _build_read_port (self : Memory) (addr : WireVector) : M WireVector :=
  out <- new_WireVector (bitwidth self) (block self) ;;
  let readport_net :=
    {| op := "m"; op_param := Some (id self, self);
       args := [addr]; dests := [out] |} in
  add_net (block self) readport_net ;;;
  readport_nets_append (ref self) readport_net ;;;
  ret out.

Definition _readaccess (self : Memory) (addr : WireVector) : M WireVector :=
  _build_read_port self addr.

Definition __setitem__ (self : Memory) (key val : value) : M unit :=
  raise (PyrtlInternalError "error, invalid call __setitem__ made on _MemReadBase").

(** The body is [pass]: the method returns [None]. *)
Definition _make_copy (self : Memory) (blk : option block_ref) : M (option Memory) :=
  ret None.

(** The call [_MemReadBase(bitwidth, addrwidth, name, block)]. *)
Definition new (bw aw : Z) (nm : option string) (blk : option block_ref) : M Memory :=
  self <- alloc ;; __init__ self C_MemReadBase bw aw nm blk.

End Methods.
End MemReadBase.

(** ** [class MemBlock(_MemReadBase)] *)
Module MemBlock.
Section Methods.
Context `{Collaborators}.

Definition __init__ (self : mem_ref) (bw aw : Z)
    (nm : option string) (blk : option block_ref) : M Memory :=
  m <- MemReadBase.__init__ self C_MemBlock bw aw nm blk ;;
  bind_writeport_nets self [] ;;;
  ret m.

(** The call [MemBlock(bitwidth, addrwidth, name, block)]. *)
Definition new (bw aw : Z) (nm : option string) (blk : option block_ref) : M Memory :=
  self <- alloc ;; __init__ self bw aw nm blk.

Definition _build_write_port (self : Memory) (addr dat enable : WireVector) : M unit :=
  let writeport_net :=
    {| op := "@"; op_param := Some (id self, self);
       args := [addr; dat; enable]; dests := [] |} in
  add_net (block self) writeport_net ;;;
  writeport_nets_append (ref self) writeport_net.

Definition _assignment (self : Memory) (item val : value) (is_conditional : bool) : M unit :=
  item' <- as_wires item (Some (addrwidth self)) false (Some (block self)) ;;
  if len item' >? addrwidth self
  then raise (PyrtlError "error, memory index bitwidth > addrwidth") else
  let addr := item' in
  let '(dat, enable) :=
    match val with
    | VEnabledWrite d e => (d, e)
    | _ => (val, VWire (Const 1 1 (block self)))
    end in
  dat' <- as_wires dat (Some (bitwidth self)) false (Some (block self)) ;;
  enable' <- as_wires enable (Some 1) false (Some (block self)) ;;
  if negb (len dat' =? bitwidth self)
  then raise (PyrtlError "error, write data larger than memory  bitwidth") else
  if negb (len enable' =? 1)
  then raise (PyrtlError "error, enable signal not exactly 1 bit") else
  if is_conditional
  then conditional_build_write_port self addr dat' enable'
  else _build_write_port self addr dat' enable'.

Definition __setitem__ (self : Memory) (item assignment : value) : M unit :=
  match assignment with
  | VMemAssignment rhs is_conditional => _assignment self item rhs is_conditional
  | _ =>
      raise (PyrtlError plain_assignment_message)
  end.

Definition _make_copy (self : Memory) (blk : option block_ref) : M (option Memory) :=
  let blk' := match blk with None => block self | Some b => b end in
  m <- new (bitwidth self) (addrwidth self) (Some (name self)) (Some blk') ;;
  ret (Some m).

End Methods.
End MemBlock.

(** ** [class RomBlock(_MemReadBase)] *)
Module RomBlock.
Section Methods.
Context `{Collaborators}.

Definition __init__ (self : mem_ref) (bw aw : Z) (d : RomData)
    (nm : option string) (blk : option block_ref) : M Memory :=
  m <- MemReadBase.__init__ self C_RomBlock bw aw nm blk ;;
  ret {| ref := ref m; cls := cls m; block := block m; bitwidth := bitwidth m;
         name := name m; addrwidth := addrwidth m; id := id m; data := Some d |}.

(** The call [RomBlock(bitwidth, addrwidth, data, name, block)]. *)
Definition new (bw aw : Z) (d : RomData) (nm : option string)
    (blk : option block_ref) : M Memory :=
  self <- alloc ;; __init__ self bw aw d nm blk.

(** Python's [l[i]] on a sequence: negative indices count from the end. *)
Definition sequence_getitem (l : list Z) (i : Z) : outcome Z :=
  let n := Z.of_nat (length l) in
  let j := if i <? 0 then i + n else i in
  if (j <? 0) || (n <=? j) then Raise IndexError
  else match l !! Z.to_nat j with
       | Some v => Ret v
       | None => Raise IndexError
       end.

(** [d(address)], for [d] a function. *)
Definition call (d : RomData) (address : Z) : outcome Z :=
  match d with
  | DataFunction f => f address
  | _ => Raise TypeError
  end.

(** [d[address]]. *)
Definition subscript (d : RomData) (address : Z) : outcome Z :=
  match d with
  | DataSequence l => sequence_getitem l address
  | _ => Raise TypeError
  end.

(** [isinstance(d, types.FunctionType)] *)
Definition is_FunctionType (d : RomData) : bool :=
  match d with DataFunction _ => true | _ => false end.

(** The method reads attributes only: it is a function of [self]. *)
Definition _get_read_data (self : Memory) (address : Z) : outcome Z :=
  if (address <? 0) || (address >? 2 ^ addrwidth self - 1)
  then Raise (PyrtlError ("Error: Invalid address, " +:+ str address +:+ " specified"))
  else
    match data self with
    | None => Raise (AttributeError "data")
    | Some d =>
        let fetched :=
          if is_FunctionType d then
            match call d address with
            | Ret v => Ret v
            | Raise e =>
                if isinstance_Exception e
                then Raise (PyrtlError "Invalid data function for RomBlock")
                else Raise e
            end
          else
            match subscript d address with
            | Ret v => Ret v
            | Raise TypeError =>
                Raise (PyrtlError "invalid type for RomBlock data object")
            | Raise IndexError =>
                Raise (PyrtlError ("An access to rom " +:+ name self +:+ " index "
                                   +:+ str address +:+ " is out of range"))
            | Raise e => Raise e
            end in
        match fetched with
        | Ret v =>
            if (v <? 0) || (v >=? 2 ^ bitwidth self)
            then Raise (PyrtlError "invalid value for RomBlock data")
            else Ret v
        | Raise e => Raise e
        end
    end.

Definition _make_copy (self : Memory) (blk : option block_ref) : M (option Memory) :=
  let blk' := match blk with None => block self | Some b => b end in
  match data self with
  | None => raise (AttributeError "data")
  | Some d =>
      m <- new (bitwidth self) (addrwidth self) d (Some (name self)) (Some blk') ;;
      ret (Some m)
  end.

End Methods.
End RomBlock.

(** ** Method resolution

    [mem[key] = val] calls the [__setitem__] of the class of [mem], and
    [mem._make_copy(block)] its [_make_copy]: [MemBlock] and [RomBlock]
    override [_make_copy], only [MemBlock] overrides [__setitem__]. *)
Section Dispatch.
Context `{Collaborators}.

Definition setitem (self : Memory) (key val : value) : M unit :=
  match cls self with
  | C_MemBlock => MemBlock.__setitem__ self key val
  | C_RomBlock | C_MemReadBase => MemReadBase.__setitem__ self key val
  end.

Definition make_copy (self : Memory) (blk : option block_ref) : M (option Memory) :=
  match cls self with
  | C_MemBlock => MemBlock._make_copy self blk
  | C_RomBlock => RomBlock._make_copy self blk
  | C_MemReadBase => MemReadBase._make_copy self blk
  end.

(** The statements [mem[a] <<= rhs] and [mem[a] |= rhs]: Python evaluates
    [mem.__getitem__(a)], applies the in-place operator to the handle, and
    stores the result with [mem.__setitem__(a, result)]. *)
Definition augmented_assignment (self : Memory) (a rhs : value) (conditional : bool) : M unit :=
  h <- MemReadBase.__getitem__ self a ;;
  let intent :=
    if conditional then MemIndexed.__ior__ h rhs else MemIndexed.__ilshift__ h rhs in
  setitem self a intent.

(** [len(mem[a])] *)
Definition len_of_index (self : Memory) (a : value) : M Z :=
  h <- MemReadBase.__getitem__ self a ;; MemIndexed.__len__ h.

End Dispatch.

(** ** Reference collaborators *)
Module Reference.

(** Modelled from the spec: the widening half of the coercion facility,
    which "owns zero/sign-extension semantics": a fresh signal of the width
    asked for, defined by a concatenation net. *)
Definition widen (w : WireVector) (bw : Z) (b : block_ref) : M WireVector :=
  out <- new_WireVector bw b ;;
  add_net b {| op := "c"; op_param := None;
               args := [Const 0 (bw - len w) b; w]; dests := [out] |} ;;;
  ret out.

(** Modelled from the spec: the truncating half ([truncating=True]), a
    fresh signal defined by a bit-selection net. *)
Definition narrow (w : WireVector) (bw : Z) (b : block_ref) : M WireVector :=
  out <- new_WireVector bw b ;;
  add_net b {| op := "s"; op_param := None; args := [w]; dests := [out] |} ;;;
  ret out.

Definition coerce_signal (w : WireVector) (bitwidth : option Z) (truncating : bool)
    (b : block_ref) : M WireVector :=
  match bitwidth with
  | None => ret w
  | Some bw =>
      if len w <? bw then widen w bw b
      else if (bw <? len w) && truncating then narrow w bw b
      else ret w
  end.

(** Modelled from the spec: [helperfuncs.as_wires], the signal coercion
    facility [coerce(value, targetWidth, truncating)].  An integer becomes a
    constant of the width asked for; a signal is widened, truncated when
    [truncating] is set, or returned as it is; a [_MemIndexed] handle "used
    as a value eagerly materializes a read port" through [_readaccess]
    (this is how every method of [_MemIndexed] obtains its wire vector) and
    the read data is coerced in turn; anything else is refused. *)
Definition as_wires (val : value) (bitwidth : option Z) (truncating : bool)
    (blk : option block_ref) : M WireVector :=
  b <- working_block blk ;;
  match val with
  | VInt n =>
      let bw := match bitwidth with Some bw => bw | None => Z.max 1 (Z.log2 n + 1) end in
      if (n <? 0) || (2 ^ bw <=? n)
      then raise (PyrtlError "error, constant does not fit in the bitwidth")
      else ret (Const n bw b)
  | VWire w => coerce_signal w bitwidth truncating b
  | VMemIndexed h =>
      w <- MemReadBase._readaccess (mem h) (index h) ;;
      coerce_signal w bitwidth truncating b
  | _ => raise (PyrtlError "error, expecting a wirevector, int, or verilog-style const string")
  end.

(** Modelled from the spec: the arbitration component called outside any
    conditional scope; it is "responsible for eventually invoking the raw
    port-builder exactly once", and with no branch predicate to combine the
    enable with, it does so at once. *)
Definition conditional_build_write_port (self : Memory) (addr dat enable : WireVector)
    : M unit :=
  MemBlock._build_write_port self addr dat enable.

End Reference.

(** The reference collaborators. *)
Definition reference : Collaborators := {|
  as_wires := Reference.as_wires;
  conditional_build_write_port := Reference.conditional_build_write_port
|}.

(** ** The error taxonomy of the specification

    [memory.py] raises [core.PyrtlError] (and once [core.PyrtlInternalError])
    with a message per fault; the specification names the faults.  Each name
    is the set of exceptions raised at the corresponding [raise]. *)

Definition ConfigurationError (e : exn) : Prop :=
  e = PyrtlError "error, bitwidth must be >= 1" \/
  e = PyrtlError "error, addrwidth must be >= 1".

Definition AddressWidthError (e : exn) : Prop :=
  e = PyrtlError "error, memory index bitwidth > addrwidth".

Definition DataWidthError (e : exn) : Prop :=
  e = PyrtlError "error, write data larger than memory  bitwidth".

Definition EnableWidthError (e : exn) : Prop :=
  e = PyrtlError "error, enable signal not exactly 1 bit".

Definition ProtocolError (e : exn) : Prop :=
  e = PyrtlInternalError "error, invalid call __setitem__ made on _MemReadBase" \/
  e = PyrtlError plain_assignment_message.

Definition AddressOutOfRange (self : Memory) (address : Z) (e : exn) : Prop :=
  e = PyrtlError ("Error: Invalid address, " +:+ str address +:+ " specified") \/
  e = PyrtlError ("An access to rom " +:+ name self +:+ " index " +:+ str address
                  +:+ " is out of range").

Definition ValueOutOfRange (e : exn) : Prop :=
  e = PyrtlError "invalid value for RomBlock data".

Definition InvalidSourceType (e : exn) : Prop :=
  e = PyrtlError "invalid type for RomBlock data object".

Definition ResolutionError (e : exn) : Prop :=
  e = PyrtlError "Invalid data function for RomBlock".

(** ** Well-formed memories and stores *)

(** What a constructor establishes: both widths are at least 1, and a
    [RomBlock], and only a [RomBlock], has a data source. *)
Definition well_formed (m : Memory) : Prop :=
  1 <= bitwidth m /\ 1 <= addrwidth m /\
  (cls m = C_RomBlock <-> is_Some (data m)).

(** Identities not yet allocated own no port list. *)
Definition fresh_store (st : State) : Prop :=
  forall r, (next_obj st <= r)%nat ->
    readport_nets st !! r = None /\ writeport_nets st !! r = None.

(** [c] returns [a] and leaves the store [st']. *)
Definition returns {A : Type} (c : M A) (st : State) (a : A) (st' : State) : Prop :=
  c st = (Ret a, st').

(** [c] raises an exception of kind [P] and leaves the store [st']. *)
Definition fails_with {A : Type} (P : exn -> Prop) (c : M A) (st st' : State) : Prop :=
  exists e, c st = (Raise e, st') /\ P e.

(** The empty store: one block (number 0), no object allocated. *)
Definition empty_state : State :=
  {| working := 0%nat; logic := ∅; next_obj := 0%nat; tempvar_num := 0;
     memid_num := 0; readport_nets := ∅; writeport_nets := ∅ |}.

(** ** Memories, stores and nets named in the statements *)

(** A memory is an object a constructor call has returned. *)
Inductive constructed : Memory -> Prop :=
| constructed_base bw aw nm blk st m st' :
    returns (MemReadBase.new bw aw nm blk) st m st' -> constructed m
| constructed_ram bw aw nm blk st m st' :
    returns (MemBlock.new bw aw nm blk) st m st' -> constructed m
| constructed_rom bw aw d nm blk st m st' :
    returns (RomBlock.new bw aw d nm blk) st m st' -> constructed m.

(** The name [__init__] binds: the one given, or a generated one. *)
Definition bound_name (nm : option string) (st : State) : string :=
  match nm with
  | Some n => n
  | None => "tmp" +:+ str (tempvar_num st)
  end.

Definition bound_block (blk : option block_ref) (st : State) : block_ref :=
  match blk with
  | Some b => b
  | None => working st
  end.

(** The net [_build_read_port] builds for address [addr] and output [out]. *)
Definition readport_net (self : Memory) (addr out : WireVector) : LogicNet :=
  {| op := "m"; op_param := Some (id self, self); args := [addr]; dests := [out] |}.

(** The net [_build_write_port] builds. *)
Definition writeport_net (self : Memory) (addr dat enable : WireVector) : LogicNet :=
  {| op := "@"; op_param := Some (id self, self);
     args := [addr; dat; enable]; dests := [] |}.

(** [isinstance(val, MemBlock.EnabledWrite)] *)
Definition is_EnabledWrite (val : value) : bool :=
  match val with VEnabledWrite _ _ => true | _ => false end.

(** [c] builds no write port, whatever the store it starts from. *)
Definition Keeps {A : Type} (c : M A) : Prop :=
  forall st o st', c st = (o, st') -> keeps_writeports st st'.

(** ** Example objects *)

(** A table of sixteen bytes but for one entry, which does not fit. *)
Definition table16 : list Z :=
  [0; 10; 20; 30; 40; 300; 60; 70; 80; 90; 100; 110; 120; 130; 140; 150].

Definition rom16 : Memory :=
  {| ref := 0%nat; cls := C_RomBlock; block := 0%nat; bitwidth := 8;
     name := "tmp0"; addrwidth := 4; id := 0; data := Some (DataSequence table16) |}.

(** A generator over one address bit whose value needs two bits, and one
    that divides by zero at address 1 and is interrupted at address 0. *)
Definition rom_gen (f : Z -> outcome Z) : Memory :=
  {| ref := 0%nat; cls := C_RomBlock; block := 0%nat; bitwidth := 1;
     name := "tmp0"; addrwidth := 1; id := 0; data := Some (DataFunction f) |}.

Definition gen_two (address : Z) : outcome Z := Ret 2.

Definition gen_faulty (address : Z) : outcome Z :=
  if address =? 1 then Raise (OtherException "ZeroDivisionError")
  else if address =? 0 then Raise KeyboardInterrupt
  else Ret 1.

(** A generator that is closed at address 0 ([GeneratorExit]) and raises an
    instance of a class of its own, derived from [BaseException], at 1. *)
Definition gen_exit (address : Z) : outcome Z :=
  if address =? 0 then Raise GeneratorExit
  else Raise (OtherBaseException "Abort").

(** Five signals of block 0, allocated before any memory: addresses of 2
    and 3 bits, data of 8 and 9 bits, an enable of 2 bits. *)
Definition sig_a2 : WireVector := Wire 0 2 0%nat.
Definition sig_d8 : WireVector := Wire 1 8 0%nat.
Definition sig_d9 : WireVector := Wire 2 9 0%nat.
Definition sig_e2 : WireVector := Wire 3 2 0%nat.
Definition sig_a3 : WireVector := Wire 4 3 0%nat.

Definition signals_state : State := set_next_obj 5 empty_state.

Definition ram8 : Memory :=
  {| ref := 5%nat; cls := C_MemBlock; block := 0%nat; bitwidth := 8;
     name := "tmp0"; addrwidth := 2; id := 0; data := None |}.

(** The store after [MemBlock(8, 2)]. *)
Definition ram8_state : State := snd (MemBlock.new 8 2 None None signals_state).

(** The handle [ram8[sig_a2]]. *)
Definition ram8_at_a2 : _MemIndexed := {| mem := ram8; index := sig_a2 |}.

(** The output of the first read port built after [ram8]. *)
Definition ram8_out : WireVector := Wire 6 8 0%nat.

(** The store after one read of [ram8] at [sig_a2]. *)
Definition ram8_read_state : State :=
  snd (MemReadBase._readaccess ram8 sig_a2 ram8_state).

(** ** Notions for the further properties *)

(** The (data, enable) pair [_assignment] takes from the right-hand side:
    the two fields of an [EnabledWrite], or the value itself with the
    constant 1 of width 1. *)
Definition write_operands (self : Memory) (val : value) : value * value :=
  match val with
  | VEnabledWrite d e => (d, e)
  | _ => (val, VWire (Const 1 1 (block self)))
  end.

(** [isinstance(val, _MemAssignment)] *)
Definition is_MemAssignment (val : value) : bool :=
  match val with VMemAssignment _ _ => true | _ => false end.

(** Every entry of the port lists of [m] is a port of [m], of the kind of
    its list and with the back reference to [m], and is a net of the block
    of [m]. *)
Definition own_ports (st : State) (m : Memory) : Prop :=
  (forall l net, readport_nets st !! ref m = Some l -> net ∈ l ->
     (exists addr out, net = readport_net m addr out) /\
     net ∈ nets st (block m)) /\
  (forall l net, writeport_nets st !! ref m = Some l -> net ∈ l ->
     (exists addr dat enable, net = writeport_net m addr dat enable) /\
     net ∈ nets st (block m)).

(** From [st] to [st'] nothing is removed: the nets of every block and
    every port list that exists are extended at the end, if at all. *)
Definition grows (st st' : State) : Prop :=
  (forall b, nets st b `prefix_of` nets st' b) /\
  (forall r l, readport_nets st !! r = Some l ->
     exists l', readport_nets st' !! r = Some l' /\ l `prefix_of` l') /\
  (forall r l, writeport_nets st !! r = Some l ->
     exists l', writeport_nets st' !! r = Some l' /\ l `prefix_of` l').

(** From [st] to [st'] no memory has come into being or changed: the port
    lists, the nets and the next memory identifier are the same. *)
Definition same_memories (st st' : State) : Prop :=
  readport_nets st' = readport_nets st /\
  writeport_nets st' = writeport_nets st /\
  logic st' = logic st /\
  memid_num st' = memid_num st.

(** The message of the width check that fails first: the bitwidth is
    checked before the address width. *)
Definition width_message (bw aw : Z) : string :=
  if bw <=? 0 then "error, bitwidth must be >= 1" else "error, addrwidth must be >= 1".

(** A table over 4 address bits that holds three entries only, and a
    table whose data source is not a table at all. *)
Definition rom_short : Memory :=
  {| ref := 0%nat; cls := C_RomBlock; block := 0%nat; bitwidth := 8;
     name := "tmp0"; addrwidth := 4; id := 0; data := Some (DataSequence [7; 8; 9]) |}.

Definition rom_unsubscriptable : Memory :=
  {| ref := 0%nat; cls := C_RomBlock; block := 0%nat; bitwidth := 8;
     name := "tmp0"; addrwidth := 4; id := 0; data := Some DataUnsubscriptable |}.

(** * Proofs *)

(** ** The store after each primitive *)

Lemma nets_add_net_same (b : block_ref) (net : LogicNet) (st : State) :
  nets (set_logic (fun l => <[b := (l !!! b) ++ [net]]> l) st) b = nets st b ++ [net].
Proof. unfold nets; simpl. by rewrite lookup_total_insert_eq. Qed.

Lemma nets_add_net_other (b b' : block_ref) (net : LogicNet) (st : State) :
  b <> b' ->
  nets (set_logic (fun l => <[b := (l !!! b) ++ [net]]> l) st) b' = nets st b'.
Proof. intros Hne. unfold nets; simpl. by rewrite lookup_total_insert_ne. Qed.

(** ** Coercions build no write port: the reference implementation *)

Lemma keeps_refl (st : State) : keeps_writeports st st.
Proof. by split. Qed.

Lemma keeps_trans (st1 st2 st3 : State) :
  keeps_writeports st1 st2 -> keeps_writeports st2 st3 -> keeps_writeports st1 st3.
Proof.
  intros [L1 N1] [L2 N2]. split.
  - by rewrite L2.
  - intros b. by rewrite N2.
Qed.

Lemma Keeps_ret {A : Type} (a : A) : Keeps (ret a).
Proof. intros st o st' [= <- <-]. apply keeps_refl. Qed.

Lemma Keeps_raise {A : Type} (e : exn) : Keeps (@raise A e).
Proof. intros st o st' [= <- <-]. apply keeps_refl. Qed.

Lemma Keeps_bind {A B : Type} (c : M A) (k : A -> M B) :
  Keeps c -> (forall a, Keeps (k a)) -> Keeps (bind c k).
Proof.
  intros Hc Hk st o st'. unfold bind.
  destruct (c st) as [[a | e] st1] eqn:E; intros Hrun.
  - eapply keeps_trans; [eapply Hc, E | eapply Hk, Hrun].
  - injection Hrun as <- <-. eapply Hc, E.
Qed.

Lemma Keeps_working_block (blk : option block_ref) : Keeps (working_block blk).
Proof. intros st o st' [= <- <-]. apply keeps_refl. Qed.

Lemma Keeps_new_WireVector (bw : Z) (b : block_ref) : Keeps (new_WireVector bw b).
Proof. intros st o st' [= <- <-]. by split. Qed.

Lemma Keeps_add_net (b : block_ref) (net : LogicNet) :
  is_writeport net = false -> Keeps (add_net b net).
Proof.
  intros Hnet st o st' [= <- <-]. split; [done |].
  intros b'. destruct (decide (b = b')) as [<- | Hne].
  - rewrite nets_add_net_same, List.filter_app. simpl. rewrite Hnet.
    by rewrite app_nil_r.
  - by rewrite nets_add_net_other.
Qed.

Lemma Keeps_readport_nets_append (r : mem_ref) (net : LogicNet) :
  Keeps (readport_nets_append r net).
Proof.
  intros st o st'. unfold readport_nets_append.
  destruct (readport_nets st !! r); intros [= <- <-]; by split.
Qed.

Lemma Keeps_readaccess (self : Memory) (addr : WireVector) :
  Keeps (MemReadBase._readaccess self addr).
Proof.
  unfold MemReadBase._readaccess, MemReadBase._build_read_port.
  apply Keeps_bind; [apply Keeps_new_WireVector | intros out].
  apply Keeps_bind; [by apply Keeps_add_net | intros _].
  apply Keeps_bind; [apply Keeps_readport_nets_append | intros _].
  apply Keeps_ret.
Qed.

Lemma Keeps_coerce_signal (w : WireVector) (bitwidth : option Z) (t : bool) (b : block_ref) :
  Keeps (Reference.coerce_signal w bitwidth t b).
Proof.
  unfold Reference.coerce_signal, Reference.widen, Reference.narrow.
  destruct bitwidth as [bw |]; [| apply Keeps_ret].
  destruct (len w <? bw).
  - apply Keeps_bind; [apply Keeps_new_WireVector | intros out].
    apply Keeps_bind; [by apply Keeps_add_net | intros _]. apply Keeps_ret.
  - destruct ((bw <? len w) && t); [| apply Keeps_ret].
    apply Keeps_bind; [apply Keeps_new_WireVector | intros out].
    apply Keeps_bind; [by apply Keeps_add_net | intros _]. apply Keeps_ret.
Qed.

Lemma Keeps_reference_as_wires (v : value) (bitwidth : option Z) (t : bool)
    (blk : option block_ref) :
  Keeps (Reference.as_wires v bitwidth t blk).
Proof.
  unfold Reference.as_wires.
  apply Keeps_bind; [apply Keeps_working_block | intros b].
  destruct v; try apply Keeps_raise.
  - destruct (_ || _); [apply Keeps_raise | apply Keeps_ret].
  - apply Keeps_coerce_signal.
  - apply Keeps_bind; [apply Keeps_readaccess | intros w].
    apply Keeps_coerce_signal.
Qed.

Lemma reference_as_wires_signal (w : WireVector) (bw : Z) (blk : option block_ref)
    (st : State) :
  bw <= len w -> Reference.as_wires (VWire w) (Some bw) false blk st = (Ret w, st).
Proof.
  intros Hle. unfold Reference.as_wires, Reference.coerce_signal, bind, working_block, ret.
  destruct (Z.ltb_spec (len w) bw) as [Hlt | _]; [lia |].
  by rewrite andb_false_r.
Qed.

Lemma coerce_signal_reads (w : WireVector) (bitwidth : option Z) (t : bool)
    (b : block_ref) (st : State) (o : outcome WireVector) (st' : State) :
  Reference.coerce_signal w bitwidth t b st = (o, st') ->
  readport_nets st' = readport_nets st.
Proof.
  unfold Reference.coerce_signal, Reference.widen, Reference.narrow,
    new_WireVector, bind, alloc, add_net, ret.
  destruct bitwidth as [bw |]; [| by intros [= <- <-]].
  destruct (len w <? bw); [by intros [= <- <-] |].
  destruct ((bw <? len w) && t); by intros [= <- <-].
Qed.

Lemma reference_as_wires_reads (v : value) (bitwidth : option Z) (t : bool)
    (blk : option block_ref) (st : State) (o : outcome WireVector) (st' : State) :
  is_MemIndexed v = false ->
  Reference.as_wires v bitwidth t blk st = (o, st') ->
  readport_nets st' = readport_nets st.
Proof.
  intros Hv. unfold Reference.as_wires, bind, working_block.
  destruct v; try discriminate Hv; try (by intros [= <- <-]).
  - unfold raise, ret. destruct (_ || _); by intros [= <- <-].
  - apply coerce_signal_reads.
Qed.

(** The reference collaborators honour the contract. *)
Lemma reference_lawful : Lawful reference.
Proof.
  split.
  - apply reference_as_wires_signal.
  - apply Keeps_reference_as_wires.
  - apply reference_as_wires_reads.
Qed.

(** ** Construction *)

Lemma base_init_returns (self : mem_ref) (c : MemClass) (bw aw : Z)
    (nm : option string) (blk : option block_ref) (st : State) :
  1 <= bw -> 1 <= aw ->
  exists st',
    MemReadBase.__init__ self c bw aw nm blk st =
      (Ret {| ref := self; cls := c; block := bound_block blk st; bitwidth := bw;
              name := bound_name nm st; addrwidth := aw; id := memid_num st;
              data := None |}, st') /\
    readport_nets st' = <[self := []]> (readport_nets st) /\
    writeport_nets st' = writeport_nets st /\
    logic st' = logic st /\
    next_obj st' = next_obj st.
Proof.
  intros Hbw Haw. unfold MemReadBase.__init__, bind, working_block.
  destruct (Z.leb_spec bw 0) as [? | _]; [lia |].
  destruct (Z.leb_spec aw 0) as [? | _]; [lia |].
  destruct nm as [n |]; simpl;
    (destruct (Z.leb_spec bw 0) as [? | _]; [lia |]);
    (destruct (Z.leb_spec aw 0) as [? | _]; [lia |]);
    eexists; (split; [reflexivity | by simpl]).
Qed.

Lemma base_init_raises (self : mem_ref) (c : MemClass) (bw aw : Z)
    (nm : option string) (blk : option block_ref) (st : State) :
  bw <= 0 \/ aw <= 0 ->
  exists st', fails_with ConfigurationError (MemReadBase.__init__ self c bw aw nm blk) st st'.
Proof.
  intros Hbad. unfold fails_with, MemReadBase.__init__, bind, working_block, raise.
  destruct nm as [n |]; simpl.
  - destruct (Z.leb_spec bw 0) as [_ | Hbw].
    + eexists _, _. split; [reflexivity | by left].
    + destruct (Z.leb_spec aw 0) as [_ | Haw]; [| lia].
      eexists _, _. split; [reflexivity | by right].
  - destruct (Z.leb_spec bw 0) as [_ | Hbw].
    + eexists _, _. split; [reflexivity | by left].
    + destruct (Z.leb_spec aw 0) as [_ | Haw]; [| lia].
      eexists _, _. split; [reflexivity | by right].
Qed.

(** A base [__init__] that returns has checked both widths. *)
Lemma base_init_inv (self : mem_ref) (c : MemClass) (bw aw : Z)
    (nm : option string) (blk : option block_ref) (st : State) (m : Memory) (st' : State) :
  MemReadBase.__init__ self c bw aw nm blk st = (Ret m, st') ->
  1 <= bw /\ 1 <= aw /\
  m = {| ref := self; cls := c; block := bound_block blk st; bitwidth := bw;
         name := bound_name nm st; addrwidth := aw; id := memid_num st;
         data := None |}.
Proof.
  intros Hrun.
  destruct (Z.le_gt_cases bw 0) as [Hbw | Hbw].
  { destruct (base_init_raises self c bw aw nm blk st (or_introl Hbw))
      as (st1 & e & Hfail & _). congruence. }
  destruct (Z.le_gt_cases aw 0) as [Haw | Haw].
  { destruct (base_init_raises self c bw aw nm blk st (or_intror Haw))
      as (st1 & e & Hfail & _). congruence. }
  destruct (base_init_returns self c bw aw nm blk st) as (st1 & Hok & _); [lia .. |].
  split; [lia | split; [lia | congruence]].
Qed.

Lemma constructed_well_formed (m : Memory) : constructed m -> well_formed m.
Proof.
  unfold well_formed.
  intros [bw aw nm blk st m' st' Hrun | bw aw nm blk st m' st' Hrun
         | bw aw d nm blk st m' st' Hrun].
  - unfold returns, MemReadBase.new, bind, alloc in Hrun.
    apply base_init_inv in Hrun as (Hbw & Haw & ->). simpl.
    repeat split; try lia; [discriminate | by intros [? [=]]].
  - unfold returns, MemBlock.new, MemBlock.__init__, bind, alloc in Hrun.
    destruct (MemReadBase.__init__ _ _ _ _ _ _ _) as [[m1 | e] st1] eqn:E;
      [| discriminate].
    apply base_init_inv in E as (Hbw & Haw & ->).
    unfold bind_writeport_nets, ret in Hrun. injection Hrun as <- _. simpl.
    repeat split; try lia; [discriminate | by intros [? [=]]].
  - unfold returns, RomBlock.new, RomBlock.__init__, bind, alloc in Hrun.
    destruct (MemReadBase.__init__ _ _ _ _ _ _ _) as [[m1 | e] st1] eqn:E;
      [| discriminate].
    apply base_init_inv in E as (Hbw & Haw & ->).
    unfold ret in Hrun. injection Hrun as <- _. simpl.
    repeat split; try lia; eauto.
Qed.

(** C3.  For all integers [bw] and [aw], constructing a memory of any of the
    three classes succeeds when both are at least 1, with the widths asked
    for, and fails with a [ConfigurationError] when [bw <= 0] or [aw <= 0]. *)
Theorem construction_checks_widths (bw aw : Z) (nm : option string)
    (blk : option block_ref) (d : RomData) (st : State) :
  (1 <= bw /\ 1 <= aw ->
     (exists m st', returns (MemReadBase.new bw aw nm blk) st m st' /\
                    bitwidth m = bw /\ addrwidth m = aw) /\
     (exists m st', returns (MemBlock.new bw aw nm blk) st m st' /\
                    bitwidth m = bw /\ addrwidth m = aw) /\
     (exists m st', returns (RomBlock.new bw aw d nm blk) st m st' /\
                    bitwidth m = bw /\ addrwidth m = aw)) /\
  (bw <= 0 \/ aw <= 0 ->
     (exists st', fails_with ConfigurationError (MemReadBase.new bw aw nm blk) st st') /\
     (exists st', fails_with ConfigurationError (MemBlock.new bw aw nm blk) st st') /\
     (exists st', fails_with ConfigurationError (RomBlock.new bw aw d nm blk) st st')).
Proof.
  split.
  - intros [Hbw Haw]. unfold returns.
    split; [| split].
    + unfold MemReadBase.new, bind, alloc.
      destruct (base_init_returns (next_obj st) C_MemReadBase bw aw nm blk
                  (set_next_obj (S (next_obj st)) st) Hbw Haw) as (st' & -> & _).
      by eexists _, _.
    + unfold MemBlock.new, MemBlock.__init__, bind, alloc.
      destruct (base_init_returns (next_obj st) C_MemBlock bw aw nm blk
                  (set_next_obj (S (next_obj st)) st) Hbw Haw) as (st' & -> & _).
      by eexists _, _.
    + unfold RomBlock.new, RomBlock.__init__, bind, alloc.
      destruct (base_init_returns (next_obj st) C_RomBlock bw aw nm blk
                  (set_next_obj (S (next_obj st)) st) Hbw Haw) as (st' & -> & _).
      by eexists _, _.
  - intros Hbad. unfold fails_with.
    split; [| split].
    + unfold MemReadBase.new, bind, alloc.
      destruct (base_init_raises (next_obj st) C_MemReadBase bw aw nm blk
                  (set_next_obj (S (next_obj st)) st) Hbad) as (st' & e & -> & He).
      by eexists _, _.
    + unfold MemBlock.new, MemBlock.__init__, bind, alloc.
      destruct (base_init_raises (next_obj st) C_MemBlock bw aw nm blk
                  (set_next_obj (S (next_obj st)) st) Hbad) as (st' & e & -> & He).
      by eexists _, _.
    + unfold RomBlock.new, RomBlock.__init__, bind, alloc.
      destruct (base_init_raises (next_obj st) C_RomBlock bw aw nm blk
                  (set_next_obj (S (next_obj st)) st) Hbad) as (st' & e & -> & He).
      by eexists _, _.
Qed.

Lemma construction_checks_widths_witness :
  (exists m st', returns (MemBlock.new 8 2 None None) empty_state m st' /\
                 bitwidth m = 8 /\ addrwidth m = 2) /\
  (exists st', fails_with ConfigurationError (MemBlock.new 0 2 None None) empty_state st') /\
  (exists st', fails_with ConfigurationError
                 (RomBlock.new 8 (-1) (DataSequence []) None None) empty_state st').
Proof.
  split; [| split].
  - apply (construction_checks_widths 8 2 None None DataUnsubscriptable empty_state).
    lia.
  - apply (construction_checks_widths 0 2 None None DataUnsubscriptable empty_state).
    lia.
  - apply (construction_checks_widths 8 (-1) None None (DataSequence []) empty_state).
    lia.
Defined.

Lemma ram_new_returns (bw aw : Z) (nm : option string) (blk : option block_ref)
    (st : State) :
  1 <= bw -> 1 <= aw ->
  exists st',
    returns (MemBlock.new bw aw nm blk) st
      {| ref := next_obj st; cls := C_MemBlock; block := bound_block blk st;
         bitwidth := bw; name := bound_name nm st; addrwidth := aw;
         id := memid_num st; data := None |} st' /\
    readport_nets st' = <[next_obj st := []]> (readport_nets st) /\
    writeport_nets st' = <[next_obj st := []]> (writeport_nets st) /\
    logic st' = logic st /\
    next_obj st' = S (next_obj st).
Proof.
  intros Hbw Haw. unfold returns, MemBlock.new, MemBlock.__init__, bind, alloc.
  destruct (base_init_returns (next_obj st) C_MemBlock bw aw nm blk
              (set_next_obj (S (next_obj st)) st) Hbw Haw)
    as (st1 & -> & Hr & Hw & Hl & Hn).
  eexists. split; [reflexivity |]. simpl. by rewrite Hr, Hw, Hl, Hn.
Qed.

Lemma rom_new_returns (bw aw : Z) (d : RomData) (nm : option string)
    (blk : option block_ref) (st : State) :
  1 <= bw -> 1 <= aw ->
  exists st',
    returns (RomBlock.new bw aw d nm blk) st
      {| ref := next_obj st; cls := C_RomBlock; block := bound_block blk st;
         bitwidth := bw; name := bound_name nm st; addrwidth := aw;
         id := memid_num st; data := Some d |} st' /\
    readport_nets st' = <[next_obj st := []]> (readport_nets st) /\
    writeport_nets st' = writeport_nets st /\
    logic st' = logic st /\
    next_obj st' = S (next_obj st).
Proof.
  intros Hbw Haw. unfold returns, RomBlock.new, RomBlock.__init__, bind, alloc.
  destruct (base_init_returns (next_obj st) C_RomBlock bw aw nm blk
              (set_next_obj (S (next_obj st)) st) Hbw Haw)
    as (st1 & -> & Hr & Hw & Hl & Hn).
  eexists. split; [reflexivity |]. simpl. by rewrite Hr, Hw, Hl, Hn.
Qed.

(** ** The store invariant

    Identities are allocated in order, and only an allocated memory owns
    port lists: [fresh_store] holds of the empty store and is kept by the
    constructors and the port builders. *)

Lemma empty_state_fresh : fresh_store empty_state.
Proof. intros r _. split; apply lookup_empty. Qed.

Lemma ram_new_inv (bw aw : Z) (nm : option string) (blk : option block_ref)
    (st : State) (m : Memory) (st' : State) :
  returns (MemBlock.new bw aw nm blk) st m st' -> 1 <= bw /\ 1 <= aw.
Proof.
  unfold returns, MemBlock.new, MemBlock.__init__, bind, alloc.
  destruct (MemReadBase.__init__ _ _ _ _ _ _ _) as [[m1 | e] st1] eqn:E;
    [| discriminate].
  apply base_init_inv in E as (Hbw & Haw & _). by intros _.
Qed.

(** A [MemBlock] just constructed is a new object that owns two empty port
    lists, and the store stays fresh. *)
Lemma ram_new_owns_port_lists (bw aw : Z) (nm : option string)
    (blk : option block_ref) (st : State) (m : Memory) (st' : State) :
  returns (MemBlock.new bw aw nm blk) st m st' ->
  ref m = next_obj st /\ cls m = C_MemBlock /\
  readport_nets st' !! ref m = Some [] /\
  writeport_nets st' !! ref m = Some [] /\
  (fresh_store st -> fresh_store st').
Proof.
  intros Hrun. destruct (ram_new_inv _ _ _ _ _ _ _ Hrun) as [Hbw Haw].
  destruct (ram_new_returns bw aw nm blk st Hbw Haw)
    as (st1 & Hnew & Hr & Hw & _ & Hn).
  unfold returns in *. rewrite Hrun in Hnew. injection Hnew as -> ->. simpl.
  rewrite Hr, Hw, !lookup_insert_eq. do 4 (split; [reflexivity |]).
  intros Hfresh k Hle. rewrite Hn in Hle. rewrite Hr, Hw.
  rewrite !lookup_insert_ne by lia. apply Hfresh. lia.
Qed.

Lemma build_read_port_keeps_fresh (self : Memory) (addr : WireVector) (st : State)
    (o : outcome WireVector) (st' : State) :
  MemReadBase._build_read_port self addr st = (o, st') ->
  fresh_store st -> fresh_store st'.
Proof.
  unfold MemReadBase._build_read_port, new_WireVector, bind, alloc, ret, add_net,
    readport_nets_append. simpl.
  destruct (readport_nets st !! ref self) as [rl |] eqn:Hrl;
    intros [= <- <-] Hfresh; unfold fresh_store; intros k Hle; simpl in *.
  - destruct (decide (ref self = k)) as [<- | Hne].
    + destruct (Hfresh (ref self)) as [Hnone _]; [lia | congruence].
    + rewrite lookup_insert_ne by done. apply Hfresh. lia.
  - apply Hfresh. lia.
Qed.

Lemma build_write_port_keeps_fresh (self : Memory) (addr dat enable : WireVector)
    (st : State) (o : outcome unit) (st' : State) :
  MemBlock._build_write_port self addr dat enable st = (o, st') ->
  fresh_store st -> fresh_store st'.
Proof.
  unfold MemBlock._build_write_port, bind, add_net, writeport_nets_append. simpl.
  destruct (writeport_nets st !! ref self) as [wl |] eqn:Hwl;
    intros [= <- <-] Hfresh; unfold fresh_store; intros k Hle; simpl in *.
  - destruct (decide (ref self = k)) as [<- | Hne].
    + destruct (Hfresh (ref self)) as [_ Hnone]; [lia | congruence].
    + rewrite lookup_insert_ne by done. by apply Hfresh.
  - by apply Hfresh.
Qed.

(** ** Resolution of read-only tables *)

Lemma address_in_range (aw k : Z) :
  0 <= k <= 2 ^ aw - 1 -> (k <? 0) || (k >? 2 ^ aw - 1) = false.
Proof.
  intros Hk. apply orb_false_iff. split; [apply Z.ltb_ge; lia |].
  rewrite Z.gtb_ltb. apply Z.ltb_ge. lia.
Qed.

Lemma address_out_of_range (aw k : Z) :
  k < 0 \/ 2 ^ aw - 1 < k -> (k <? 0) || (k >? 2 ^ aw - 1) = true.
Proof.
  intros Hk. apply orb_true_iff. rewrite Z.gtb_ltb, !Z.ltb_lt. lia.
Qed.

Lemma value_in_range (bw v : Z) :
  0 <= v < 2 ^ bw -> (v <? 0) || (v >=? 2 ^ bw) = false.
Proof.
  intros Hv. apply orb_false_iff. split; [apply Z.ltb_ge; lia |].
  rewrite Z.geb_leb. apply Z.leb_gt. lia.
Qed.

Lemma value_out_of_range (bw v : Z) :
  v < 0 \/ 2 ^ bw <= v -> (v <? 0) || (v >=? 2 ^ bw) = true.
Proof.
  intros Hv. apply orb_true_iff. rewrite Z.geb_leb, Z.ltb_lt, Z.leb_le. lia.
Qed.

(** Inside its bounds, a sequence is subscripted without fault. *)
Lemma sequence_getitem_in_bounds (l : list Z) (i : Z) :
  0 <= i < Z.of_nat (length l) ->
  exists v, l !! Z.to_nat i = Some v /\ RomBlock.sequence_getitem l i = Ret v.
Proof.
  intros Hi. unfold RomBlock.sequence_getitem. cbv zeta.
  assert (Hneg : (i <? 0) = false) by (apply Z.ltb_ge; lia).
  assert (Hlen : (Z.of_nat (length l) <=? i) = false) by (apply Z.leb_gt; lia).
  rewrite !Hneg, Hlen. simpl.
  destruct (l !! Z.to_nat i) as [v |] eqn:E; [by exists v |].
  apply lookup_ge_None in E. lia.
Qed.

(** C2.  A read-only table with address width 4 over a static table of 16
    entries: for [k] in [0, 15], [_get_read_data k] returns [table[k]] when
    that value lies in [0, 2^bitwidth - 1] and fails with [ValueOutOfRange]
    when it is negative or at least [2^bitwidth]; for every [k] outside
    [0, 2^addrwidth - 1], and for 16 in particular, it fails with
    [AddressOutOfRange]. *)
Theorem static_table_resolution (self : Memory) (table : list Z) (k : Z) :
  constructed self ->
  addrwidth self = 4 ->
  data self = Some (DataSequence table) ->
  length table = 16%nat ->
  (0 <= k <= 15 ->
     exists v, table !! Z.to_nat k = Some v /\
       (0 <= v < 2 ^ bitwidth self -> RomBlock._get_read_data self k = Ret v) /\
       (v < 0 \/ 2 ^ bitwidth self <= v ->
          exists e, RomBlock._get_read_data self k = Raise e /\ ValueOutOfRange e)) /\
  (k < 0 \/ 2 ^ addrwidth self - 1 < k ->
     exists e, RomBlock._get_read_data self k = Raise e /\ AddressOutOfRange self k e) /\
  (exists e, RomBlock._get_read_data self 16 = Raise e /\ AddressOutOfRange self 16 e).
Proof.
  intros _ Haw Hdata Hlen. split; [| split].
  - intros Hk.
    destruct (sequence_getitem_in_bounds table k) as (v & Hv & Hget); [lia |].
    exists v. split; [exact Hv |].
    unfold RomBlock._get_read_data.
    rewrite address_in_range by (rewrite Haw; lia).
    rewrite Hdata. simpl. rewrite Hget. split.
    + intros Hin. by rewrite value_in_range.
    + intros Hout. rewrite value_out_of_range by exact Hout.
      eexists. split; [reflexivity | reflexivity].
  - intros Hk. unfold RomBlock._get_read_data.
    rewrite address_out_of_range by exact Hk.
    eexists. split; [reflexivity | by left].
  - unfold RomBlock._get_read_data.
    rewrite address_out_of_range by (rewrite Haw; lia).
    eexists. split; [reflexivity | by left].
Qed.

Lemma rom16_constructed : constructed rom16.
Proof.
  apply (constructed_rom 8 4 (DataSequence table16) None None empty_state rom16
           (snd (RomBlock.new 8 4 (DataSequence table16) None None empty_state))).
  reflexivity.
Qed.

Lemma static_table_resolution_witness :
  RomBlock._get_read_data rom16 3 = Ret 30 /\
  (exists e, RomBlock._get_read_data rom16 5 = Raise e /\ ValueOutOfRange e) /\
  (exists e, RomBlock._get_read_data rom16 (-1) = Raise e /\ AddressOutOfRange rom16 (-1) e) /\
  (exists e, RomBlock._get_read_data rom16 16 = Raise e /\ AddressOutOfRange rom16 16 e).
Proof.
  split; [| split; [| split]].
  - destruct (static_table_resolution rom16 table16 3 rom16_constructed
                eq_refl eq_refl eq_refl) as [Hin _].
    destruct Hin as (v & Hv & Hok & _); [lia |].
    injection Hv as <-. apply Hok. simpl. lia.
  - destruct (static_table_resolution rom16 table16 5 rom16_constructed
                eq_refl eq_refl eq_refl) as [Hin _].
    destruct Hin as (v & Hv & _ & Hbad); [lia |].
    injection Hv as <-. apply Hbad. simpl. lia.
  - apply (static_table_resolution rom16 table16 (-1) rom16_constructed
             eq_refl eq_refl eq_refl). lia.
  - apply (static_table_resolution rom16 table16 16 rom16_constructed
             eq_refl eq_refl eq_refl).
Defined.

(** C5, as the code has it.  A generator-backed table and an address [k] in
    [0, 2^addrwidth - 1]: when the generator returns [v], [_get_read_data k]
    returns [v] provided [0 <= v < 2^bitwidth] and fails with
    [ValueOutOfRange] otherwise; when the generator raises an exception
    derived from [Exception], [_get_read_data k] fails with
    [ResolutionError]; anything else it raises ([KeyboardInterrupt],
    [SystemExit], [GeneratorExit], an instance of any other class that does
    not derive from [Exception]) passes through as it is. *)
Theorem generator_resolution (self : Memory) (f : Z -> outcome Z) (k : Z) :
  constructed self ->
  data self = Some (DataFunction f) ->
  0 <= k <= 2 ^ addrwidth self - 1 ->
  (forall v, f k = Ret v -> 0 <= v < 2 ^ bitwidth self ->
     RomBlock._get_read_data self k = Ret v) /\
  (forall v, f k = Ret v -> v < 0 \/ 2 ^ bitwidth self <= v ->
     exists e, RomBlock._get_read_data self k = Raise e /\ ValueOutOfRange e) /\
  (forall e, f k = Raise e -> isinstance_Exception e = true ->
     exists e', RomBlock._get_read_data self k = Raise e' /\ ResolutionError e') /\
  (forall e, f k = Raise e -> isinstance_Exception e = false ->
     RomBlock._get_read_data self k = Raise e).
Proof.
  intros _ Hdata Hk. unfold RomBlock._get_read_data.
  rewrite address_in_range by exact Hk. rewrite Hdata. simpl.
  repeat split.
  - intros v -> Hv. by rewrite value_in_range.
  - intros v -> Hv. rewrite value_out_of_range by exact Hv.
    eexists. split; reflexivity.
  - intros e -> ->. eexists. split; reflexivity.
  - by intros e -> ->.
Qed.

Lemma rom_gen_constructed (f : Z -> outcome Z) : constructed (rom_gen f).
Proof.
  apply (constructed_rom 1 1 (DataFunction f) None None empty_state (rom_gen f)
           (snd (RomBlock.new 1 1 (DataFunction f) None None empty_state))).
  reflexivity.
Qed.

Lemma generator_resolution_witness :
  (exists e, RomBlock._get_read_data (rom_gen gen_two) 0 = Raise e /\ ValueOutOfRange e) /\
  (exists e, RomBlock._get_read_data (rom_gen gen_faulty) 1 = Raise e /\ ResolutionError e) /\
  RomBlock._get_read_data (rom_gen gen_faulty) 0 = Raise KeyboardInterrupt /\
  RomBlock._get_read_data (rom_gen gen_exit) 0 = Raise GeneratorExit /\
  RomBlock._get_read_data (rom_gen gen_exit) 1 = Raise (OtherBaseException "Abort").
Proof.
  split; [| split; [| split; [| split]]].
  - apply (generator_resolution (rom_gen gen_two) gen_two 0
             (rom_gen_constructed gen_two) eq_refl) with (v := 2);
      [simpl; lia | reflexivity | simpl; lia].
  - apply (generator_resolution (rom_gen gen_faulty) gen_faulty 1
             (rom_gen_constructed gen_faulty) eq_refl)
      with (e := OtherException "ZeroDivisionError");
      [simpl; lia | reflexivity | reflexivity].
  - apply (generator_resolution (rom_gen gen_faulty) gen_faulty 0
             (rom_gen_constructed gen_faulty) eq_refl);
      [simpl; lia | reflexivity | reflexivity].
  - apply (generator_resolution (rom_gen gen_exit) gen_exit 0
             (rom_gen_constructed gen_exit) eq_refl);
      [simpl; lia | reflexivity | reflexivity].
  - apply (generator_resolution (rom_gen gen_exit) gen_exit 1
             (rom_gen_constructed gen_exit) eq_refl);
      [simpl; lia | reflexivity | reflexivity].
Defined.

(** C5 as stated fails: an in-range address whose generated value does not
    fit the bitwidth is not resolved to that value. *)
Lemma generator_value_is_validated :
  constructed (rom_gen gen_two) /\
  data (rom_gen gen_two) = Some (DataFunction gen_two) /\
  0 <= 0 <= 2 ^ addrwidth (rom_gen gen_two) - 1 /\
  gen_two 0 = Ret 2 /\
  RomBlock._get_read_data (rom_gen gen_two) 0 <> Ret 2 /\
  RomBlock._get_read_data (rom_gen gen_two) 0 =
    Raise (PyrtlError "invalid value for RomBlock data").
Proof.
  split; [apply rom_gen_constructed |].
  repeat split; try reflexivity; simpl; try lia. discriminate.
Qed.

(** Nor is every fault re-reported: [except Exception] lets an exception
    that derives from [BaseException] alone pass through. *)
Lemma generator_interrupt_passes_through :
  gen_faulty 0 = Raise KeyboardInterrupt /\
  RomBlock._get_read_data (rom_gen gen_faulty) 0 = Raise KeyboardInterrupt /\
  ~ ResolutionError KeyboardInterrupt.
Proof. repeat split. discriminate. Qed.

(** What [except Exception] catches and what it lets through, class by
    class: the split of [isinstance_Exception] is the one of Python's
    exception hierarchy. *)
Lemma except_Exception_catches (e : exn) :
  isinstance_Exception e = false <->
  e = KeyboardInterrupt \/ e = SystemExit \/ e = GeneratorExit \/
  exists cls, e = OtherBaseException cls.
Proof.
  split.
  - destruct e; try discriminate; eauto 6.
  - intros [-> | [-> | [-> | [cls ->]]]]; reflexivity.
Qed.

Lemma generator_exit_passes_through :
  RomBlock._get_read_data (rom_gen gen_exit) 0 = Raise GeneratorExit /\
  ~ ResolutionError GeneratorExit.
Proof. split; [reflexivity | discriminate]. Qed.

(** ** Writing to a memory that is not a [MemBlock] *)

Section ReadOnly.
Context `{Collaborators}.

(** C7.  On a read-only table, and on the shared base, every call of the
    assignment handler fails with a [ProtocolError], whatever the key and
    the value, and leaves the store untouched: the handler called directly,
    the handler the class resolves to, and the handler reached through the
    statements [mem[key] <<= rhs] and [mem[key] |= rhs]. *)
Theorem readonly_write_is_refused (self : Memory) (key val : value) (st : State) :
  cls self <> C_MemBlock ->
  fails_with ProtocolError (MemReadBase.__setitem__ self key val) st st /\
  fails_with ProtocolError (setitem self key val) st st /\
  (forall (c : bool) h st1,
     returns (MemReadBase.__getitem__ self key) st h st1 ->
     fails_with ProtocolError (augmented_assignment self key val c) st st1).
Proof.
  intros Hcls.
  assert (Hbase : forall k v s,
             fails_with ProtocolError (MemReadBase.__setitem__ self k v) s s).
  { intros k v s. eexists. split; [reflexivity | by left]. }
  assert (Hset : forall k v s, fails_with ProtocolError (setitem self k v) s s).
  { intros k v s. unfold setitem. destruct (cls self); [apply Hbase | done | apply Hbase]. }
  split; [apply Hbase | split; [apply Hset |]].
  intros c h st1 Hidx. unfold returns in Hidx.
  unfold fails_with, augmented_assignment, bind. rewrite Hidx. apply Hset.
Qed.

End ReadOnly.

Lemma readonly_write_is_refused_witness :
  fails_with ProtocolError (MemReadBase.__setitem__ rom16 (VInt 3) (VInt 7))
    empty_state empty_state /\
  fails_with ProtocolError (@setitem reference rom16 (VInt 3) (VInt 7))
    empty_state empty_state.
Proof.
  destruct (@readonly_write_is_refused reference rom16 (VInt 3) (VInt 7) empty_state)
    as (Hbase & Hset & _); [discriminate |].
  split; [exact Hbase | exact Hset].
Defined.

(** ** Cloning *)

(** C9.  The clone of a constructed [MemBlock] or [RomBlock] is a new
    object with the bitwidth, address width and name of the original (and,
    for a table, its data source), bound to the target block, or to the
    block of the original when no target is given.  Its read-port list is
    empty; the write-port list of a [MemBlock] clone is empty and a
    [RomBlock] clone has no write-port list at all.  No net is added to any
    block. *)
Theorem clone_is_port_empty (self : Memory) (blk : option block_ref) (st : State) :
  constructed self ->
  cls self = C_MemBlock \/ cls self = C_RomBlock ->
  fresh_store st ->
  exists m st',
    returns (make_copy self blk) st (Some m) st' /\
    bitwidth m = bitwidth self /\
    addrwidth m = addrwidth self /\
    name m = name self /\
    cls m = cls self /\
    data m = data self /\
    block m = match blk with Some target => target | None => block self end /\
    ref m = next_obj st /\
    readport_nets st' !! ref m = Some [] /\
    writeport_nets st' !! ref m =
      match cls self with C_MemBlock => Some [] | _ => None end /\
    logic st' = logic st.
Proof.
  intros Hcons Hcls Hfresh.
  destruct (constructed_well_formed self Hcons) as (Hbw & Haw & Hdata).
  unfold make_copy. destruct Hcls as [Hcls | Hcls]; rewrite Hcls.
  - destruct (ram_new_returns (bitwidth self) (addrwidth self) (Some (name self))
                (Some (match blk with None => block self | Some b => b end)) st Hbw Haw)
      as (st' & Hnew & Hr & Hw & Hl & Hn).
    eexists _, st'. split.
    { unfold returns, MemBlock._make_copy, bind in *. rewrite Hnew. reflexivity. }
    simpl.
    rewrite Hr, Hw, !lookup_insert_eq.
    assert (data self = None) as ->.
    { destruct (data self) eqn:E; [| done].
      destruct Hdata as [_ Hrom]. rewrite Hrom in Hcls by eauto. discriminate. }
    repeat split; done.
  - destruct Hdata as [Hrom _]. destruct (Hrom Hcls) as [d Hd].
    destruct (rom_new_returns (bitwidth self) (addrwidth self) d (Some (name self))
                (Some (match blk with None => block self | Some b => b end)) st Hbw Haw)
      as (st' & Hnew & Hr & Hw & Hl & Hn).
    eexists _, st'. split.
    { unfold returns, RomBlock._make_copy, bind in *. rewrite Hd, Hnew. reflexivity. }
    simpl.
    rewrite Hr, Hw, lookup_insert_eq.
    repeat split; try done.
    by apply Hfresh.
Qed.

Lemma ram8_constructed : constructed ram8.
Proof.
  apply (constructed_ram 8 2 None None signals_state ram8 ram8_state). reflexivity.
Qed.

Lemma ram8_state_fresh : fresh_store ram8_state.
Proof.
  intros r Hr. simpl in Hr. unfold ram8_state. simpl.
  split; (rewrite lookup_insert_ne by lia; apply lookup_empty).
Qed.

Lemma clone_is_port_empty_witness :
  (exists m st',
     returns (make_copy ram8 (Some 5%nat)) ram8_state (Some m) st' /\
     bitwidth m = 8 /\ addrwidth m = 2 /\ name m = "tmp0"%string /\ block m = 5%nat /\
     readport_nets st' !! ref m = Some [] /\ writeport_nets st' !! ref m = Some []) /\
  (exists m st',
     returns (make_copy rom16 (Some 5%nat)) empty_state (Some m) st' /\
     bitwidth m = 8 /\ addrwidth m = 4 /\ name m = "tmp0"%string /\ block m = 5%nat /\
     readport_nets st' !! ref m = Some [] /\ writeport_nets st' !! ref m = None).
Proof.
  split.
  - destruct (clone_is_port_empty ram8 (Some 5%nat) ram8_state ram8_constructed
                (or_introl eq_refl) ram8_state_fresh)
      as (m & st' & Hrun & Hbw & Haw & Hnm & _ & _ & Hblk & _ & Hr & Hw & _).
    exists m, st'. by repeat split.
  - destruct (clone_is_port_empty rom16 (Some 5%nat) empty_state rom16_constructed
                (or_intror eq_refl) empty_state_fresh)
      as (m & st' & Hrun & Hbw & Haw & Hnm & _ & _ & Hblk & _ & Hr & Hw & _).
    exists m, st'. by repeat split.
Defined.

(** ** Read ports *)

Lemma build_read_port_returns (self : Memory) (addr : WireVector) (st : State)
    (rl : list LogicNet) :
  readport_nets st !! ref self = Some rl ->
  exists st',
    returns (MemReadBase._build_read_port self addr) st
      (Wire (next_obj st) (bitwidth self) (block self)) st' /\
    readport_nets st' =
      <[ref self := rl ++ [readport_net self addr
                             (Wire (next_obj st) (bitwidth self) (block self))]]>
        (readport_nets st) /\
    writeport_nets st' = writeport_nets st /\
    logic st' =
      <[block self := nets st (block self) ++
                      [readport_net self addr
                         (Wire (next_obj st) (bitwidth self) (block self))]]>
        (logic st) /\
    next_obj st' = S (next_obj st).
Proof.
  intros Hrl.
  unfold returns, MemReadBase._build_read_port, new_WireVector, bind, alloc, ret,
    add_net, readport_nets_append.
  simpl. rewrite Hrl. eexists. split; [reflexivity |]. by simpl.
Qed.

Lemma build_write_port_returns (self : Memory) (addr dat enable : WireVector)
    (st : State) (wl : list LogicNet) :
  writeport_nets st !! ref self = Some wl ->
  exists st',
    returns (MemBlock._build_write_port self addr dat enable) st tt st' /\
    writeport_nets st' =
      <[ref self := wl ++ [writeport_net self addr dat enable]]> (writeport_nets st) /\
    readport_nets st' = readport_nets st /\
    logic st' =
      <[block self := nets st (block self) ++ [writeport_net self addr dat enable]]>
        (logic st) /\
    next_obj st' = next_obj st.
Proof.
  intros Hwl.
  unfold returns, MemBlock._build_write_port, bind, add_net, writeport_nets_append.
  simpl. rewrite Hwl. eexists. split; [reflexivity |]. by simpl.
Qed.

(** C8.  Reading a memory twice at the same address builds two read ports:
    each access allocates a fresh output signal of the memory's bitwidth,
    the two signals and the two nets are distinct, both nets take the
    address as their only argument, and the memory's read-port list and the
    nets of its block each grow by exactly these two nets. *)
Theorem read_twice_builds_two_ports (self : Memory) (addr : WireVector) (st : State)
    (rl : list LogicNet) :
  readport_nets st !! ref self = Some rl ->
  exists out1 out2 st1 st2,
    returns (MemReadBase._readaccess self addr) st out1 st1 /\
    returns (MemReadBase._readaccess self addr) st1 out2 st2 /\
    out1 = Wire (next_obj st) (bitwidth self) (block self) /\
    out2 = Wire (S (next_obj st)) (bitwidth self) (block self) /\
    out1 <> out2 /\
    readport_net self addr out1 <> readport_net self addr out2 /\
    len out1 = bitwidth self /\
    len out2 = bitwidth self /\
    readport_nets st2 !! ref self =
      Some (rl ++ [readport_net self addr out1; readport_net self addr out2]) /\
    nets st2 (block self) =
      nets st (block self) ++ [readport_net self addr out1; readport_net self addr out2] /\
    writeport_nets st2 = writeport_nets st.
Proof.
  intros Hrl.
  destruct (build_read_port_returns self addr st rl Hrl)
    as (st1 & Hrun1 & Hr1 & Hw1 & Hl1 & Hn1).
  assert (Hrl1 : readport_nets st1 !! ref self =
                 Some (rl ++ [readport_net self addr
                                (Wire (next_obj st) (bitwidth self) (block self))])).
  { rewrite Hr1. apply lookup_insert_eq. }
  destruct (build_read_port_returns self addr st1 _ Hrl1)
    as (st2 & Hrun2 & Hr2 & Hw2 & Hl2 & Hn2).
  rewrite Hn1 in Hrun2, Hr2, Hl2.
  eexists _, _, st1, st2.
  split; [exact Hrun1 | split; [exact Hrun2 |]].
  split; [reflexivity | split; [reflexivity |]].
  split; [intros [= Hneq]; lia |].
  split; [intros [= Hneq]; lia |].
  split; [reflexivity | split; [reflexivity |]].
  split; [| split].
  - rewrite Hr2, lookup_insert_eq. by rewrite <- app_assoc.
  - unfold nets at 1. rewrite Hl2, lookup_total_insert_eq.
    unfold nets at 1. rewrite Hl1, lookup_total_insert_eq.
    by rewrite <- app_assoc.
  - by rewrite Hw2, Hw1.
Qed.

Lemma read_twice_builds_two_ports_witness :
  exists out1 out2 st1 st2,
    returns (MemReadBase._readaccess ram8 sig_a2) ram8_state out1 st1 /\
    returns (MemReadBase._readaccess ram8 sig_a2) st1 out2 st2 /\
    out1 <> out2 /\
    len out1 = 8 /\ len out2 = 8 /\
    readport_nets st2 !! ref ram8 =
      Some [readport_net ram8 sig_a2 out1; readport_net ram8 sig_a2 out2].
Proof.
  destruct (read_twice_builds_two_ports ram8 sig_a2 ram8_state [] eq_refl)
    as (out1 & out2 & st1 & st2 & H1 & H2 & _ & _ & Hne & _ & Hl1 & Hl2 & Hr & _).
  exists out1, out2, st1, st2. by repeat split.
Defined.

(** ** Indexing, length, and the commit of a write *)

Section Core.
Context {C : Collaborators} {HC : Lawful C}.

(** Indexing returns the handle of the coerced address, or refuses it; in
    both cases the store is the one the coercion left. *)
Lemma getitem_after_coercion (self : Memory) (a : value) (st : State)
    (addr : WireVector) (st1 : State) :
  as_wires a (Some (addrwidth self)) false (Some (block self)) st = (Ret addr, st1) ->
  MemReadBase.__getitem__ self a st =
    if len addr >? addrwidth self
    then (Raise (PyrtlError "error, memory index bitwidth > addrwidth"), st1)
    else (Ret {| mem := self; index := addr |}, st1).
Proof.
  intros Ha. unfold MemReadBase.__getitem__, bind. rewrite Ha.
  by destruct (len addr >? addrwidth self).
Qed.

Lemma getitem_inv (self : Memory) (a : value) (st : State) (h : _MemIndexed)
    (st1 : State) :
  returns (MemReadBase.__getitem__ self a) st h st1 ->
  as_wires a (Some (addrwidth self)) false (Some (block self)) st = (Ret (index h), st1) /\
  mem h = self /\ len (index h) <= addrwidth self.
Proof.
  unfold returns, MemReadBase.__getitem__, bind.
  destruct (as_wires a _ _ _ st) as [[addr | e] st'] eqn:Ha; [| discriminate].
  destruct (len addr >? addrwidth self) eqn:Hlen; [discriminate |].
  intros [= <- <-]. simpl. repeat split. rewrite Z.gtb_ltb in Hlen.
  by apply Z.ltb_ge in Hlen.
Qed.

(** C10.  The length of the handle [mem[a]] is the memory's bitwidth, and
    taking it changes nothing in the store: no read port is built, the port
    lists and the nets are what indexing left.  When [a] is a signal of the
    address width, indexing itself leaves the store as it was, so the
    whole of [len(mem[a])] does. *)
Theorem len_of_handle_builds_nothing (self : Memory) (a : value) (st : State)
    (h : _MemIndexed) (st1 : State) :
  returns (MemReadBase.__getitem__ self a) st h st1 ->
  returns (MemIndexed.__len__ h) st1 (bitwidth self) st1 /\
  returns (len_of_index self a) st (bitwidth self) st1 /\
  (forall w, a = VWire w -> len w = addrwidth self -> st1 = st).
Proof.
  intros Hidx. destruct (getitem_inv self a st h st1 Hidx) as (Ha & Hmem & Hlen).
  unfold returns in *. split; [| split].
  - unfold MemIndexed.__len__, ret. by rewrite Hmem.
  - unfold len_of_index, bind. rewrite Hidx.
    unfold MemIndexed.__len__, ret. by rewrite Hmem.
  - intros w -> Hw. rewrite as_wires_signal in Ha by lia. congruence.
Qed.

(** C1.  Committing the unconditional write intent [mem[a] <<= d] to a
    [MemBlock], for an address that coerces to at most the address width
    and data that coerces to exactly the bitwidth, returns and builds one
    write port: the
    net has operation ["@"], arguments (address, data, enable) with the
    enable the constant 1 of width 1, and no destination; it is appended to
    the memory's write-port list and to the nets of its block, and no other
    write port appears in any list or block. *)
Theorem unconditional_write_builds_one_port (self : Memory) (a d : value)
    (st : State) (addr : WireVector) (st1 : State) (dat : WireVector) (st2 : State)
    (wl : list LogicNet) :
  writeport_nets st !! ref self = Some wl ->
  is_EnabledWrite d = false ->
  as_wires a (Some (addrwidth self)) false (Some (block self)) st = (Ret addr, st1) ->
  len addr <= addrwidth self ->
  as_wires d (Some (bitwidth self)) false (Some (block self)) st1 = (Ret dat, st2) ->
  len dat = bitwidth self ->
  let enable := Const 1 1 (block self) in
  let net := {| op := "@"; op_param := Some (id self, self);
                args := [addr; dat; enable]; dests := [] |} in
  exists st3,
    returns (MemBlock.__setitem__ self a (VMemAssignment d false)) st tt st3 /\
    (cls self = C_MemBlock ->
     returns (setitem self a (VMemAssignment d false)) st tt st3) /\
    len enable = 1 /\
    writeport_nets st3 = <[ref self := wl ++ [net]]> (writeport_nets st) /\
    nets st3 (block self) = nets st2 (block self) ++ [net] /\
    (forall b, b <> block self -> nets st3 b = nets st2 b) /\
    (forall b, List.filter is_writeport (nets st3 b) =
               List.filter is_writeport (nets st b) ++
               (if decide (b = block self) then [net] else [])) /\
    readport_nets st3 = readport_nets st2.
Proof.
  intros Hwl Hd Ha Hlen_a Hdat Hlen_d enable net.
  pose proof (as_wires_keeps _ _ _ _ _ _ _ Ha) as [L1 N1].
  pose proof (as_wires_keeps _ _ _ _ _ _ _ Hdat) as [L2 N2].
  assert (Hwl2 : writeport_nets st2 !! ref self = Some wl) by (by rewrite L2, L1).
  destruct (build_write_port_returns self addr dat enable st2 wl Hwl2)
    as (st3 & Hrun & Hw3 & Hr3 & Hl3 & _).
  assert (Hcommit :
            returns (MemBlock.__setitem__ self a (VMemAssignment d false)) st tt st3).
  { unfold returns, MemBlock.__setitem__, MemBlock._assignment, bind in *.
    rewrite Ha.
    assert ((len addr >? addrwidth self) = false) as ->.
    { rewrite Z.gtb_ltb. apply Z.ltb_ge. lia. }
    destruct d; try discriminate Hd; simpl;
      rewrite Hdat, (as_wires_signal enable 1 (Some (block self)) st2) by (simpl; lia);
      simpl; rewrite Hlen_d, Z.eqb_refl; simpl; exact Hrun. }
  exists st3. split; [exact Hcommit |].
  split; [intros Hcls; unfold setitem; by rewrite Hcls |].
  split; [reflexivity |].
  split; [by rewrite Hw3, L2, L1 |].
  split; [unfold nets at 1; by rewrite Hl3, lookup_total_insert_eq |].
  split; [intros b Hb; unfold nets at 1; by rewrite Hl3, lookup_total_insert_ne |].
  split; [| exact Hr3].
  intros b. rewrite <- N1, <- N2. unfold nets at 1. rewrite Hl3.
  destruct (decide (b = block self)) as [-> | Hb].
  - rewrite lookup_total_insert_eq, List.filter_app. reflexivity.
  - rewrite lookup_total_insert_ne by done. by rewrite app_nil_r.
Qed.

(** C4, as the code has it.  Committing [mem[a] <<= EnabledWrite(d, e)] (or
    the conditional [mem[a] |= EnabledWrite(d, e)]) when the address and the
    data pass their checks and the enable coerces to a width other than 1
    fails with [EnableWidthError].  The store is the one the three
    coercions left: the commit itself builds nothing, no write-port list
    and no block has gained a write port, and unless one of the three
    expressions is itself a memory read no read-port list has changed.
    When the three are signals that need no widening, the store is exactly
    the one before the commit. *)
Theorem wide_enable_is_refused (self : Memory) (a d e : value) (c : bool)
    (st : State) (addr : WireVector) (st1 : State) (dat : WireVector) (st2 : State)
    (en : WireVector) (st3 : State) :
  as_wires a (Some (addrwidth self)) false (Some (block self)) st = (Ret addr, st1) ->
  len addr <= addrwidth self ->
  as_wires d (Some (bitwidth self)) false (Some (block self)) st1 = (Ret dat, st2) ->
  len dat = bitwidth self ->
  as_wires e (Some 1) false (Some (block self)) st2 = (Ret en, st3) ->
  len en <> 1 ->
  fails_with EnableWidthError
    (MemBlock.__setitem__ self a (VMemAssignment (VEnabledWrite d e) c)) st st3 /\
  writeport_nets st3 = writeport_nets st /\
  (forall b, List.filter is_writeport (nets st3 b) = List.filter is_writeport (nets st b)) /\
  (is_MemIndexed a = false -> is_MemIndexed d = false -> is_MemIndexed e = false ->
   readport_nets st3 = readport_nets st) /\
  (forall wa wd we,
     a = VWire wa -> d = VWire wd -> e = VWire we ->
     addrwidth self <= len wa -> bitwidth self <= len wd -> 1 <= len we ->
     st3 = st).
Proof.
  intros Ha Hlen_a Hdat Hlen_d Hen Hlen_e.
  pose proof (as_wires_keeps _ _ _ _ _ _ _ Ha) as [L1 N1].
  pose proof (as_wires_keeps _ _ _ _ _ _ _ Hdat) as [L2 N2].
  pose proof (as_wires_keeps _ _ _ _ _ _ _ Hen) as [L3 N3].
  split; [| split; [| split; [| split]]].
  - unfold fails_with, MemBlock.__setitem__, MemBlock._assignment, bind.
    rewrite Ha.
    assert ((len addr >? addrwidth self) = false) as ->.
    { rewrite Z.gtb_ltb. apply Z.ltb_ge. lia. }
    simpl. rewrite Hdat, Hen, Hlen_d, Z.eqb_refl. simpl.
    assert ((len en =? 1) = false) as -> by (by apply Z.eqb_neq).
    simpl. eexists. split; reflexivity.
  - by rewrite L3, L2, L1.
  - intros b. by rewrite N3, N2, N1.
  - intros Hva Hvd Hve.
    rewrite (as_wires_reads _ _ _ _ _ _ _ Hve Hen),
      (as_wires_reads _ _ _ _ _ _ _ Hvd Hdat).
    exact (as_wires_reads _ _ _ _ _ _ _ Hva Ha).
  - intros wa wd we -> -> -> Hwa Hwd Hwe.
    rewrite as_wires_signal in Ha by exact Hwa. injection Ha as _ <-.
    rewrite as_wires_signal in Hdat by exact Hwd. injection Hdat as _ <-.
    rewrite as_wires_signal in Hen by exact Hwe. by injection Hen as _ <-.
Qed.

(** C6, as the code has it.  When the address expression coerces to a
    signal wider than the address width, indexing and the commit of a
    write both fail with [AddressWidthError], and the store they leave is
    the one the coercion of the address left: neither builds a node of its
    own, and no write port has appeared.  Unless the address expression is
    itself a memory read, no read-port list has changed either.  When the
    expression is already a signal, wider than the address width, the
    coercion builds nothing at all, and the store, with every port list and
    net in it, is unchanged. *)
Theorem wide_address_is_refused (self : Memory) (a : value) (st : State)
    (addr : WireVector) (st1 : State) :
  as_wires a (Some (addrwidth self)) false (Some (block self)) st = (Ret addr, st1) ->
  addrwidth self < len addr ->
  fails_with AddressWidthError (MemReadBase.__getitem__ self a) st st1 /\
  (forall val c,
     fails_with AddressWidthError (MemBlock._assignment self a val c) st st1 /\
     fails_with AddressWidthError
       (MemBlock.__setitem__ self a (VMemAssignment val c)) st st1) /\
  writeport_nets st1 = writeport_nets st /\
  (forall b, List.filter is_writeport (nets st1 b) = List.filter is_writeport (nets st b)) /\
  (is_MemIndexed a = false -> readport_nets st1 = readport_nets st) /\
  (forall w, a = VWire w -> addrwidth self < len w -> st1 = st).
Proof.
  intros Ha Hwide.
  pose proof (as_wires_keeps _ _ _ _ _ _ _ Ha) as [L1 N1].
  assert (Hgt : (len addr >? addrwidth self) = true).
  { rewrite Z.gtb_ltb. by apply Z.ltb_lt. }
  assert (Hcommit : forall val c,
             fails_with AddressWidthError (MemBlock._assignment self a val c) st st1).
  { intros val c. unfold fails_with, MemBlock._assignment, bind.
    rewrite Ha, Hgt. eexists. split; reflexivity. }
  split; [| split; [| split; [| split; [| split]]]].
  - unfold fails_with. rewrite (getitem_after_coercion self a st addr st1 Ha), Hgt.
    eexists. split; reflexivity.
  - intros val c. split; [apply Hcommit |]. unfold MemBlock.__setitem__. apply Hcommit.
  - exact L1.
  - exact N1.
  - intros Hv. exact (as_wires_reads _ _ _ _ _ _ _ Hv Ha).
  - intros w -> Hw. rewrite as_wires_signal in Ha by lia. congruence.
Qed.

End Core.

(** ** The theorems at work, with the reference collaborators *)

Lemma len_of_handle_builds_nothing_witness :
  returns (MemIndexed.__len__ ram8_at_a2) ram8_state 8 ram8_state /\
  returns (@len_of_index reference ram8 (VWire sig_a2)) ram8_state 8 ram8_state.
Proof.
  destruct (@len_of_handle_builds_nothing reference reference_lawful ram8
              (VWire sig_a2) ram8_state ram8_at_a2 ram8_state eq_refl)
    as (Hlen & Hall & _).
  split; [exact Hlen | exact Hall].
Defined.

(** Unlike [len], a use of the handle as a value builds a read port. *)
Lemma handle_as_value_builds_read_port :
  @MemIndexed.as_wires_self reference ram8_at_a2 ram8_state =
    (Ret ram8_out, ram8_read_state) /\
  readport_nets ram8_state !! ref ram8 = Some [] /\
  readport_nets ram8_read_state !! ref ram8 = Some [readport_net ram8 sig_a2 ram8_out] /\
  nets ram8_state 0%nat = [] /\
  nets ram8_read_state 0%nat = [readport_net ram8 sig_a2 ram8_out].
Proof. repeat split. Qed.

Lemma unconditional_write_builds_one_port_witness :
  exists st3,
    returns (@MemBlock.__setitem__ reference ram8 (VWire sig_a2)
               (VMemAssignment (VInt 5) false)) ram8_state tt st3 /\
    writeport_nets st3 !! ref ram8 =
      Some [writeport_net ram8 sig_a2 (Const 5 8 0%nat) (Const 1 1 0%nat)] /\
    nets st3 0%nat = [writeport_net ram8 sig_a2 (Const 5 8 0%nat) (Const 1 1 0%nat)].
Proof.
  destruct (@unconditional_write_builds_one_port reference reference_lawful ram8
              (VWire sig_a2) (VInt 5)
              ram8_state sig_a2 ram8_state (Const 5 8 0%nat) ram8_state []
              eq_refl eq_refl eq_refl ltac:(simpl; lia) eq_refl eq_refl)
    as (st3 & Hrun & _ & _ & Hw & Hn & _).
  exists st3. split; [exact Hrun | split].
  - rewrite Hw. apply lookup_insert_eq.
  - exact Hn.
Defined.

Lemma wide_enable_is_refused_witness :
  fails_with EnableWidthError
    (@MemBlock.__setitem__ reference ram8 (VWire sig_a2)
       (VMemAssignment (VEnabledWrite (VWire sig_d8) (VWire sig_e2)) false))
    ram8_state ram8_state.
Proof.
  apply (@wide_enable_is_refused reference reference_lawful ram8
           (VWire sig_a2) (VWire sig_d8)
           (VWire sig_e2) false ram8_state sig_a2 ram8_state sig_d8 ram8_state
           sig_e2 ram8_state eq_refl ltac:(simpl; lia) eq_refl eq_refl eq_refl
           ltac:(simpl; lia)).
Defined.

(** C4 as stated fails, twice over.  With an enable two bits wide and data
    one bit too wide, the commit fails on the data, which is checked first.
    And with data that fits but is read from a memory ([ram8[sig_a2]]), the
    commit fails on the enable as claimed, but the read port of the data has
    been built by the coercion before the enable is checked, and it stays:
    the nets of the block have gained a node. *)
Lemma wide_enable_claim_fails :
  (@as_wires reference (VWire sig_e2) (Some 1) false (Some (block ram8)) ram8_state =
     (Ret sig_e2, ram8_state) /\
   len sig_e2 <> 1 /\
   exists e,
     @MemBlock.__setitem__ reference ram8 (VWire sig_a2)
       (VMemAssignment (VEnabledWrite (VWire sig_d9) (VWire sig_e2)) false) ram8_state =
       (Raise e, ram8_state) /\
     DataWidthError e /\ ~ EnableWidthError e) /\
  (fails_with EnableWidthError
     (@MemBlock.__setitem__ reference ram8 (VWire sig_a2)
        (VMemAssignment (VEnabledWrite (VMemIndexed ram8_at_a2) (VWire sig_e2)) false))
     ram8_state ram8_read_state /\
   nets ram8_state (block ram8) = [] /\
   nets ram8_read_state (block ram8) = [readport_net ram8 sig_a2 ram8_out] /\
   readport_nets ram8_state !! ref ram8 = Some [] /\
   readport_nets ram8_read_state !! ref ram8 = Some [readport_net ram8 sig_a2 ram8_out]).
Proof.
  split.
  - split; [reflexivity | split; [simpl; lia |]].
    eexists. split; [reflexivity | split; [reflexivity | discriminate]].
  - split; [| repeat split].
    exists (PyrtlError "error, enable signal not exactly 1 bit").
    split; [vm_compute; reflexivity | reflexivity].
Qed.

Lemma wide_address_is_refused_witness :
  fails_with AddressWidthError
    (@MemReadBase.__getitem__ reference ram8 (VWire sig_a3)) ram8_state ram8_state /\
  fails_with AddressWidthError
    (@MemBlock.__setitem__ reference ram8 (VWire sig_a3)
       (VMemAssignment (VWire sig_d8) false)) ram8_state ram8_state.
Proof.
  destruct (@wide_address_is_refused reference reference_lawful ram8
              (VWire sig_a3) ram8_state sig_a3 ram8_state eq_refl ltac:(simpl; lia))
    as (Hidx & Hcommit & _).
  split; [exact Hidx | apply Hcommit].
Defined.

(** C6 as stated fails: the address expression [ram8[sig_a2]] coerces to
    the 8-bit output of a read port, wider than the 2-bit address width.
    Indexing [ram8] with it fails with [AddressWidthError], but the read
    port has been built: the read-port list of [ram8] and the nets of its
    block have each gained it. *)
Lemma wide_address_read_port_is_built :
  returns (@MemReadBase.__getitem__ reference ram8 (VWire sig_a2))
    ram8_state ram8_at_a2 ram8_state /\
  @as_wires reference (VMemIndexed ram8_at_a2) (Some (addrwidth ram8)) false
    (Some (block ram8)) ram8_state = (Ret ram8_out, ram8_read_state) /\
  addrwidth ram8 < len ram8_out /\
  fails_with AddressWidthError
    (@MemReadBase.__getitem__ reference ram8 (VMemIndexed ram8_at_a2))
    ram8_state ram8_read_state /\
  fails_with AddressWidthError
    (@MemBlock.__setitem__ reference ram8 (VMemIndexed ram8_at_a2)
       (VMemAssignment (VWire sig_d8) false))
    ram8_state ram8_read_state /\
  readport_nets ram8_state !! ref ram8 = Some [] /\
  readport_nets ram8_read_state !! ref ram8 = Some [readport_net ram8 sig_a2 ram8_out] /\
  readport_nets ram8_read_state <> readport_nets ram8_state /\
  nets ram8_state (block ram8) = [] /\
  nets ram8_read_state (block ram8) = [readport_net ram8 sig_a2 ram8_out].
Proof.
  split; [reflexivity |].
  split; [reflexivity | split; [simpl; lia |]].
  split; [eexists; split; reflexivity |].
  split; [eexists; split; reflexivity |].
  split; [reflexivity | split; [reflexivity |]].
  split; [| split; reflexivity].
  intros Heq. apply (f_equal (fun m => m !! ref ram8)) in Heq. discriminate Heq.
Qed.

(** * Further properties of [memory.py] *)

(** ** Resolution of read-only tables: the other paths *)

Lemma sequence_getitem_past_end (l : list Z) (i : Z) :
  Z.of_nat (length l) <= i -> RomBlock.sequence_getitem l i = Raise IndexError.
Proof.
  intros Hi. unfold RomBlock.sequence_getitem. cbv zeta.
  assert (Hneg : (i <? 0) = false) by (apply Z.ltb_ge; lia).
  assert (Hlen : (Z.of_nat (length l) <=? i) = true) by (apply Z.leb_le; lia).
  rewrite !Hneg, Hlen. reflexivity.
Qed.

(** X1.  A table shorter than its address space: an address that passes
    the address check but lies past the end of the sequence fails with the
    [AddressOutOfRange] of the subscript, the message that names the table
    and the index. *)
Theorem short_table_is_out_of_range (self : Memory) (table : list Z) (k : Z) :
  data self = Some (DataSequence table) ->
  0 <= k <= 2 ^ addrwidth self - 1 ->
  Z.of_nat (length table) <= k ->
  RomBlock._get_read_data self k =
    Raise (PyrtlError ("An access to rom " +:+ name self +:+ " index " +:+ str k
                       +:+ " is out of range")) /\
  AddressOutOfRange self k
    (PyrtlError ("An access to rom " +:+ name self +:+ " index " +:+ str k
                 +:+ " is out of range")).
Proof.
  intros Hdata Hk Hlen. split; [| by right].
  unfold RomBlock._get_read_data.
  rewrite address_in_range by exact Hk. rewrite Hdata. simpl.
  by rewrite sequence_getitem_past_end.
Qed.

Lemma short_table_is_out_of_range_witness :
  RomBlock._get_read_data rom_short 3 =
    Raise (PyrtlError "An access to rom tmp0 index 3 is out of range").
Proof.
  apply (short_table_is_out_of_range rom_short [7; 8; 9] 3 eq_refl);
    simpl; lia.
Defined.

(** X2.  A data source that is neither a function nor subscriptable: every
    address that passes the address check fails with [InvalidSourceType]. *)
Theorem unsubscriptable_source_is_refused (self : Memory) (k : Z) :
  data self = Some DataUnsubscriptable ->
  0 <= k <= 2 ^ addrwidth self - 1 ->
  exists e, RomBlock._get_read_data self k = Raise e /\ InvalidSourceType e.
Proof.
  intros Hdata Hk. unfold RomBlock._get_read_data.
  rewrite address_in_range by exact Hk. rewrite Hdata. simpl.
  eexists. split; reflexivity.
Qed.

Lemma unsubscriptable_source_is_refused_witness :
  exists e, RomBlock._get_read_data rom_unsubscriptable 0 = Raise e /\
            InvalidSourceType e.
Proof.
  apply (unsubscriptable_source_is_refused rom_unsubscriptable 0 eq_refl).
  simpl. lia.
Defined.

(** X3.  Whatever [_get_read_data] returns is sound: the address lies in
    [0, 2^addrwidth - 1], the value lies in [0, 2^bitwidth - 1], and the
    value is the one the data source holds at that address: what the
    function returns there, or the entry of the sequence at that index
    counted from the front. *)
Theorem resolved_data_is_sound (self : Memory) (k v : Z) :
  RomBlock._get_read_data self k = Ret v ->
  0 <= k <= 2 ^ addrwidth self - 1 /\
  0 <= v < 2 ^ bitwidth self /\
  match data self with
  | Some (DataFunction f) => f k = Ret v
  | Some (DataSequence l) => l !! Z.to_nat k = Some v
  | _ => False
  end.
Proof.
  unfold RomBlock._get_read_data.
  destruct ((k <? 0) || (k >? 2 ^ addrwidth self - 1)) eqn:Haddr; [discriminate |].
  apply orb_false_iff in Haddr as [Hlo Hhi].
  apply Z.ltb_ge in Hlo. rewrite Z.gtb_ltb in Hhi. apply Z.ltb_ge in Hhi.
  destruct (data self) as [d |]; [| discriminate].
  assert (Hval : forall w,
             (if (w <? 0) || (w >=? 2 ^ bitwidth self)
              then Raise (PyrtlError "invalid value for RomBlock data")
              else Ret w) = Ret v -> w = v /\ 0 <= v < 2 ^ bitwidth self).
  { intros w. destruct ((w <? 0) || (w >=? 2 ^ bitwidth self)) eqn:Hw; [discriminate |].
    intros [= ->]. apply orb_false_iff in Hw as [Hw1 Hw2].
    apply Z.ltb_ge in Hw1. rewrite Z.geb_leb in Hw2. apply Z.leb_gt in Hw2. lia. }
  destruct d as [f | l |]; simpl.
  - destruct (f k) as [w | e] eqn:Hf.
    + intros Hrun. apply Hval in Hrun as [-> Hv]. repeat split; lia.
    + destruct (isinstance_Exception e); discriminate.
  - unfold RomBlock.sequence_getitem. cbv zeta.
    assert (Hneg : (k <? 0) = false) by (apply Z.ltb_ge; lia).
    rewrite !Hneg. simpl.
    destruct (Z.of_nat (length l) <=? k); [discriminate |].
    destruct (l !! Z.to_nat k) as [w |] eqn:Hl; [| discriminate].
    intros Hrun. apply Hval in Hrun as [-> Hv]. repeat split; lia.
  - discriminate.
Qed.

Lemma resolved_data_is_sound_witness :
  0 <= 3 <= 2 ^ addrwidth rom16 - 1 /\ 0 <= 30 < 2 ^ bitwidth rom16 /\
  table16 !! Z.to_nat 3 = Some 30.
Proof. exact (resolved_data_is_sound rom16 3 30 eq_refl). Defined.

(** X4.  The address is checked before the data source is looked at: an
    address outside [0, 2^addrwidth - 1] fails with the invalid-address
    [AddressOutOfRange] whatever the data source is; a generator is not
    called, so one that would raise does not turn the error into a
    [ResolutionError], and a negative address never reads a sequence from
    its end. *)
Theorem address_is_checked_first (self : Memory) (k : Z) :
  k < 0 \/ 2 ^ addrwidth self - 1 < k ->
  RomBlock._get_read_data self k =
    Raise (PyrtlError ("Error: Invalid address, " +:+ str k +:+ " specified")) /\
  AddressOutOfRange self k
    (PyrtlError ("Error: Invalid address, " +:+ str k +:+ " specified")) /\
  ~ ResolutionError
      (PyrtlError ("Error: Invalid address, " +:+ str k +:+ " specified")).
Proof.
  intros Hk. split; [| split; [by left |]].
  - unfold RomBlock._get_read_data. by rewrite address_out_of_range.
  - unfold ResolutionError. intros [=].
Qed.

Lemma address_is_checked_first_witness :
  RomBlock._get_read_data (rom_gen gen_faulty) 2 =
    Raise (PyrtlError "Error: Invalid address, 2 specified") /\
  RomBlock._get_read_data rom_short (-1) =
    Raise (PyrtlError "Error: Invalid address, -1 specified").
Proof.
  split.
  - apply (address_is_checked_first (rom_gen gen_faulty) 2). simpl. lia.
  - apply (address_is_checked_first rom_short (-1)). lia.
Defined.

Lemma get_read_data_depends_on (m self : Memory) :
  bitwidth m = bitwidth self -> addrwidth m = addrwidth self ->
  name m = name self -> data m = data self ->
  forall k, RomBlock._get_read_data m k = RomBlock._get_read_data self k.
Proof.
  intros Hb Ha Hn Hd k. unfold RomBlock._get_read_data. by rewrite Hb, Ha, Hn, Hd.
Qed.

(** X5.  The clone of a read-only table resolves every address exactly as
    the original does: the same value, or the same error with the same
    message. *)
Theorem cloned_table_resolves_alike (self : Memory) (blk : option block_ref)
    (st : State) (m : Memory) (st' : State) :
  constructed self ->
  cls self = C_RomBlock ->
  returns (make_copy self blk) st (Some m) st' ->
  forall k, RomBlock._get_read_data m k = RomBlock._get_read_data self k.
Proof.
  intros Hcons Hcls Hcopy.
  destruct (constructed_well_formed self Hcons) as (Hbw & Haw & Hdata).
  destruct Hdata as [Hrom _]. destruct (Hrom Hcls) as [d Hd].
  destruct (rom_new_returns (bitwidth self) (addrwidth self) d (Some (name self))
              (Some (match blk with None => block self | Some b => b end)) st Hbw Haw)
    as (st1 & Hnew & _).
  unfold returns, make_copy, RomBlock._make_copy, bind, ret in *.
  rewrite Hcls, Hd, Hnew in Hcopy. injection Hcopy as <- _.
  apply get_read_data_depends_on; simpl; congruence.
Qed.

Lemma cloned_table_resolves_alike_witness :
  RomBlock._get_read_data
    {| ref := 0%nat; cls := C_RomBlock; block := 5%nat; bitwidth := 8;
       name := "tmp0"; addrwidth := 4; id := 0;
       data := Some (DataSequence table16) |} 5 =
  RomBlock._get_read_data rom16 5.
Proof.
  exact (cloned_table_resolves_alike rom16 (Some 5%nat) empty_state _
           (snd (make_copy rom16 (Some 5%nat) empty_state))
           rom16_constructed eq_refl eq_refl 5).
Defined.

(** ** The commit of a write: the other paths *)

Section Commit.
Context {C : Collaborators}.

(** Once the three operands are coerced and the address has passed its
    check, the commit is decided by the two remaining checks. *)
Lemma assignment_after_coercions (self : Memory) (a val : value) (c : bool)
    (st : State) (addr : WireVector) (st1 : State) (dat : WireVector) (st2 : State)
    (en : WireVector) (st3 : State) :
  as_wires a (Some (addrwidth self)) false (Some (block self)) st = (Ret addr, st1) ->
  len addr <= addrwidth self ->
  as_wires (fst (write_operands self val)) (Some (bitwidth self)) false
    (Some (block self)) st1 = (Ret dat, st2) ->
  as_wires (snd (write_operands self val)) (Some 1) false
    (Some (block self)) st2 = (Ret en, st3) ->
  MemBlock._assignment self a val c st =
    if negb (len dat =? bitwidth self)
    then (Raise (PyrtlError "error, write data larger than memory  bitwidth"), st3)
    else if negb (len en =? 1)
    then (Raise (PyrtlError "error, enable signal not exactly 1 bit"), st3)
    else if c then conditional_build_write_port self addr dat en st3
    else MemBlock._build_write_port self addr dat en st3.
Proof.
  intros Ha Hlen Hdat Hen. unfold MemBlock._assignment, bind. rewrite Ha.
  assert ((len addr >? addrwidth self) = false) as ->.
  { rewrite Z.gtb_ltb. apply Z.ltb_ge. lia. }
  destruct val; simpl in *; rewrite Hdat, Hen;
    destruct (negb (len dat =? bitwidth self)); try reflexivity;
    destruct (negb (len en =? 1)); try reflexivity; by destruct c.
Qed.

(** X6.  A value that is not a write intent, as the plain statement
    [mem[item] = v] supplies it, is refused by a [MemBlock] with the
    plain-assignment [ProtocolError] before anything is coerced or checked:
    the store is untouched, whatever the address and the value are. *)
Theorem plain_assignment_is_refused (self : Memory) (item v : value) (st : State) :
  is_MemAssignment v = false ->
  MemBlock.__setitem__ self item v st = (Raise (PyrtlError plain_assignment_message), st) /\
  ProtocolError (PyrtlError plain_assignment_message) /\
  (cls self = C_MemBlock ->
   setitem self item v st = (Raise (PyrtlError plain_assignment_message), st)).
Proof.
  intros Hv.
  assert (Hset : MemBlock.__setitem__ self item v st =
                 (Raise (PyrtlError plain_assignment_message), st)).
  { unfold MemBlock.__setitem__. by destruct v. }
  split; [exact Hset | split; [by right |]].
  intros Hcls. unfold setitem. by rewrite Hcls.
Qed.

(** X7.  A conditional write whose operands pass the three checks is handed
    to the arbitration component, with the memory and the three coerced
    signals, in the store the coercions left: the memory builds no port of
    its own on this path.  The intent [mem[a] |= val] takes this path. *)
Theorem conditional_write_is_delegated (self : Memory) (a val : value)
    (st : State) (addr : WireVector) (st1 : State) (dat : WireVector) (st2 : State)
    (en : WireVector) (st3 : State) :
  as_wires a (Some (addrwidth self)) false (Some (block self)) st = (Ret addr, st1) ->
  len addr <= addrwidth self ->
  as_wires (fst (write_operands self val)) (Some (bitwidth self)) false
    (Some (block self)) st1 = (Ret dat, st2) ->
  len dat = bitwidth self ->
  as_wires (snd (write_operands self val)) (Some 1) false
    (Some (block self)) st2 = (Ret en, st3) ->
  len en = 1 ->
  MemBlock._assignment self a val true st =
    conditional_build_write_port self addr dat en st3 /\
  (forall h, MemBlock.__setitem__ self a (MemIndexed.__ior__ h val) st =
             conditional_build_write_port self addr dat en st3).
Proof.
  intros Ha Hlen_a Hdat Hlen_d Hen Hlen_e.
  assert (Hcommit : MemBlock._assignment self a val true st =
                    conditional_build_write_port self addr dat en st3).
  { rewrite (assignment_after_coercions self a val true st addr st1 dat st2 en st3)
      by assumption.
    by rewrite Hlen_d, Hlen_e, !Z.eqb_refl. }
  split; [exact Hcommit |]. intros h. exact Hcommit.
Qed.

Context {HC : Lawful C}.

(** X8.  Data whose coerced width differs from the bitwidth is refused
    with [DataWidthError], for a plain value and for an [EnabledWrite]
    alike, conditional or not, and whatever the width of the enable: the
    data is checked first.  No write port has been built. *)
Theorem mismatched_data_is_refused (self : Memory) (a val : value) (c : bool)
    (st : State) (addr : WireVector) (st1 : State) (dat : WireVector) (st2 : State)
    (en : WireVector) (st3 : State) :
  as_wires a (Some (addrwidth self)) false (Some (block self)) st = (Ret addr, st1) ->
  len addr <= addrwidth self ->
  as_wires (fst (write_operands self val)) (Some (bitwidth self)) false
    (Some (block self)) st1 = (Ret dat, st2) ->
  len dat <> bitwidth self ->
  as_wires (snd (write_operands self val)) (Some 1) false
    (Some (block self)) st2 = (Ret en, st3) ->
  fails_with DataWidthError (MemBlock._assignment self a val c) st st3 /\
  fails_with DataWidthError
    (MemBlock.__setitem__ self a (VMemAssignment val c)) st st3 /\
  writeport_nets st3 = writeport_nets st /\
  (forall b, List.filter is_writeport (nets st3 b) = List.filter is_writeport (nets st b)).
Proof.
  intros Ha Hlen_a Hdat Hlen_d Hen.
  pose proof (as_wires_keeps _ _ _ _ _ _ _ Ha) as [L1 N1].
  pose proof (as_wires_keeps _ _ _ _ _ _ _ Hdat) as [L2 N2].
  pose proof (as_wires_keeps _ _ _ _ _ _ _ Hen) as [L3 N3].
  assert (Hcommit : fails_with DataWidthError (MemBlock._assignment self a val c) st st3).
  { unfold fails_with.
    rewrite (assignment_after_coercions self a val c st addr st1 dat st2 en st3)
      by assumption.
    assert ((len dat =? bitwidth self) = false) as -> by (by apply Z.eqb_neq).
    simpl. eexists. split; reflexivity. }
  split; [exact Hcommit | split; [exact Hcommit | split]].
  - by rewrite L3, L2, L1.
  - intros b. by rewrite N3, N2, N1.
Qed.

(** X9.  An unconditional write of [EnabledWrite(d, e)] whose operands pass
    the three checks builds one write port whose third argument is the
    coerced enable the caller gave, not the constant 1: the net is appended
    to the memory's write-port list and to the nets of its block, and
    nothing else changes after the coercions. *)
Theorem enabled_write_builds_port (self : Memory) (a d e : value)
    (st : State) (addr : WireVector) (st1 : State) (dat : WireVector) (st2 : State)
    (en : WireVector) (st3 : State) (wl : list LogicNet) :
  writeport_nets st !! ref self = Some wl ->
  as_wires a (Some (addrwidth self)) false (Some (block self)) st = (Ret addr, st1) ->
  len addr <= addrwidth self ->
  as_wires d (Some (bitwidth self)) false (Some (block self)) st1 = (Ret dat, st2) ->
  len dat = bitwidth self ->
  as_wires e (Some 1) false (Some (block self)) st2 = (Ret en, st3) ->
  len en = 1 ->
  exists st4,
    returns (MemBlock.__setitem__ self a (VMemAssignment (VEnabledWrite d e) false))
      st tt st4 /\
    writeport_nets st4 =
      <[ref self := wl ++ [writeport_net self addr dat en]]> (writeport_nets st) /\
    nets st4 (block self) = nets st3 (block self) ++ [writeport_net self addr dat en] /\
    (forall b, b <> block self -> nets st4 b = nets st3 b) /\
    readport_nets st4 = readport_nets st3 /\
    next_obj st4 = next_obj st3.
Proof.
  intros Hwl Ha Hlen_a Hdat Hlen_d Hen Hlen_e.
  pose proof (as_wires_keeps _ _ _ _ _ _ _ Ha) as [L1 _].
  pose proof (as_wires_keeps _ _ _ _ _ _ _ Hdat) as [L2 _].
  pose proof (as_wires_keeps _ _ _ _ _ _ _ Hen) as [L3 _].
  assert (Hwl3 : writeport_nets st3 !! ref self = Some wl) by (by rewrite L3, L2, L1).
  destruct (build_write_port_returns self addr dat en st3 wl Hwl3)
    as (st4 & Hrun & Hw4 & Hr4 & Hl4 & Hn4).
  exists st4. split.
  { unfold returns, MemBlock.__setitem__ in *.
    rewrite (assignment_after_coercions self a (VEnabledWrite d e) false
               st addr st1 dat st2 en st3) by assumption.
    by rewrite Hlen_d, Hlen_e, !Z.eqb_refl. }
  split; [by rewrite Hw4, L3, L2, L1 |].
  split; [unfold nets at 1; by rewrite Hl4, lookup_total_insert_eq |].
  split; [intros b Hb; unfold nets at 1; by rewrite Hl4, lookup_total_insert_ne |].
  by split.
Qed.

(** X10.  With an address that is already a signal, at least as wide as
    the address width, the statements [mem[a] <<= rhs] and [mem[a] |= rhs]
    on a [MemBlock] are the commit and nothing more: the handle that
    indexing builds on the way is never read, so the statement builds no
    read port, and an address that is too wide fails the same way in
    both. *)
Theorem write_statement_is_commit (self : Memory) (w : WireVector) (rhs : value)
    (c : bool) (st : State) :
  cls self = C_MemBlock ->
  addrwidth self <= len w ->
  augmented_assignment self (VWire w) rhs c st =
    MemBlock._assignment self (VWire w) rhs c st.
Proof.
  intros Hcls Hw.
  unfold augmented_assignment, bind.
  rewrite (getitem_after_coercion self (VWire w) st w st)
    by (by apply as_wires_signal).
  destruct (len w >? addrwidth self) eqn:Hgt.
  - unfold MemBlock._assignment, bind.
    rewrite as_wires_signal by exact Hw. by rewrite Hgt.
  - unfold setitem. rewrite Hcls. by destruct c.
Qed.

End Commit.

Lemma plain_assignment_is_refused_witness :
  @MemBlock.__setitem__ reference ram8 (VWire sig_a3) (VWire sig_d9) ram8_state =
    (Raise (PyrtlError plain_assignment_message), ram8_state).
Proof.
  exact (proj1 (@plain_assignment_is_refused reference ram8 (VWire sig_a3)
                  (VWire sig_d9) ram8_state eq_refl)).
Defined.

Lemma conditional_write_is_delegated_witness :
  @MemBlock._assignment reference ram8 (VWire sig_a2) (VWire sig_d8) true ram8_state =
    @conditional_build_write_port reference ram8 sig_a2 sig_d8 (Const 1 1 0%nat)
      ram8_state.
Proof.
  exact (proj1 (@conditional_write_is_delegated reference ram8 (VWire sig_a2)
                  (VWire sig_d8) ram8_state sig_a2 ram8_state sig_d8 ram8_state
                  (Const 1 1 0%nat) ram8_state
                  eq_refl ltac:(simpl; lia) eq_refl eq_refl eq_refl eq_refl)).
Defined.

Lemma mismatched_data_is_refused_witness :
  fails_with DataWidthError
    (@MemBlock._assignment reference ram8 (VWire sig_a2) (VWire sig_d9) false)
    ram8_state ram8_state /\
  fails_with DataWidthError
    (@MemBlock._assignment reference ram8 (VWire sig_a2)
       (VEnabledWrite (VWire sig_d9) (VWire sig_e2)) true)
    ram8_state ram8_state.
Proof.
  split.
  - apply (@mismatched_data_is_refused reference reference_lawful ram8
             (VWire sig_a2) (VWire sig_d9) false
             ram8_state sig_a2 ram8_state sig_d9 ram8_state (Const 1 1 0%nat) ram8_state
             eq_refl ltac:(simpl; lia) eq_refl ltac:(simpl; lia) eq_refl).
  - apply (@mismatched_data_is_refused reference reference_lawful ram8
             (VWire sig_a2) (VEnabledWrite (VWire sig_d9) (VWire sig_e2)) true
             ram8_state sig_a2 ram8_state sig_d9 ram8_state sig_e2 ram8_state
             eq_refl ltac:(simpl; lia) eq_refl ltac:(simpl; lia) eq_refl).
Defined.

Lemma enabled_write_builds_port_witness :
  exists st4,
    returns (@MemBlock.__setitem__ reference ram8 (VWire sig_a2)
               (VMemAssignment (VEnabledWrite (VWire sig_d8) (VInt 0)) false))
      ram8_state tt st4 /\
    writeport_nets st4 !! ref ram8 =
      Some [writeport_net ram8 sig_a2 sig_d8 (Const 0 1 0%nat)].
Proof.
  destruct (@enabled_write_builds_port reference reference_lawful ram8
              (VWire sig_a2) (VWire sig_d8) (VInt 0)
              ram8_state sig_a2 ram8_state sig_d8 ram8_state (Const 0 1 0%nat)
              ram8_state [] eq_refl eq_refl ltac:(simpl; lia) eq_refl eq_refl
              eq_refl eq_refl)
    as (st4 & Hrun & Hw & _).
  exists st4. split; [exact Hrun |]. rewrite Hw. apply lookup_insert_eq.
Defined.

Lemma write_statement_is_commit_witness :
  @augmented_assignment reference ram8 (VWire sig_a2) (VWire sig_d8) false ram8_state =
    @MemBlock._assignment reference ram8 (VWire sig_a2) (VWire sig_d8) false ram8_state /\
  @augmented_assignment reference ram8 (VWire sig_a3) (VWire sig_d8) true ram8_state =
    @MemBlock._assignment reference ram8 (VWire sig_a3) (VWire sig_d8) true ram8_state.
Proof.
  split.
  - apply (@write_statement_is_commit reference reference_lawful ram8 sig_a2
             (VWire sig_d8) false ram8_state eq_refl). simpl. lia.
  - apply (@write_statement_is_commit reference reference_lawful ram8 sig_a3
             (VWire sig_d8) true ram8_state eq_refl). simpl. lia.
Defined.

(** ** What the port builders do to the store *)

(** The store after [_build_read_port], whether the append succeeds or
    the object has no read-port list. *)
Lemma build_read_port_store (self : Memory) (addr : WireVector) (st : State)
    (o : outcome WireVector) (st' : State) :
  MemReadBase._build_read_port self addr st = (o, st') ->
  logic st' =
    <[block self := nets st (block self) ++
                    [readport_net self addr
                       (Wire (next_obj st) (bitwidth self) (block self))]]>
      (logic st) /\
  writeport_nets st' = writeport_nets st /\
  readport_nets st' =
    match readport_nets st !! ref self with
    | Some l =>
        <[ref self := l ++ [readport_net self addr
                              (Wire (next_obj st) (bitwidth self) (block self))]]>
          (readport_nets st)
    | None => readport_nets st
    end /\
  next_obj st' = S (next_obj st).
Proof.
  unfold MemReadBase._build_read_port, new_WireVector, bind, alloc, ret, add_net,
    readport_nets_append. simpl.
  destruct (readport_nets st !! ref self) as [l |]; by intros [= <- <-].
Qed.

Lemma build_write_port_store (self : Memory) (addr dat enable : WireVector)
    (st : State) (o : outcome unit) (st' : State) :
  MemBlock._build_write_port self addr dat enable st = (o, st') ->
  logic st' =
    <[block self := nets st (block self) ++ [writeport_net self addr dat enable]]>
      (logic st) /\
  readport_nets st' = readport_nets st /\
  writeport_nets st' =
    match writeport_nets st !! ref self with
    | Some l => <[ref self := l ++ [writeport_net self addr dat enable]]> (writeport_nets st)
    | None => writeport_nets st
    end /\
  next_obj st' = next_obj st.
Proof.
  unfold MemBlock._build_write_port, bind, add_net, writeport_nets_append. simpl.
  destruct (writeport_nets st !! ref self) as [l |]; by intros [= <- <-].
Qed.

Lemma nets_after_insert (st st' : State) (b0 : block_ref) (net : LogicNet) :
  logic st' = <[b0 := nets st b0 ++ [net]]> (logic st) ->
  nets st' b0 = nets st b0 ++ [net] /\
  (forall b, b <> b0 -> nets st' b = nets st b).
Proof.
  intros Hl. unfold nets at 1 3. rewrite Hl. split.
  - apply lookup_total_insert_eq.
  - intros b Hb. by apply lookup_total_insert_ne.
Qed.

Lemma lists_after_append (m m' : gmap nat (list LogicNet)) (r0 : nat) (net : LogicNet) :
  m' = match m !! r0 with
       | Some l => <[r0 := l ++ [net]]> m
       | None => m
       end ->
  (forall r l, m !! r = Some l -> exists l', m' !! r = Some l' /\ l `prefix_of` l') /\
  (forall r, r <> r0 -> m' !! r = m !! r).
Proof.
  intros ->. split.
  - intros r l Hl. destruct (m !! r0) as [l0 |] eqn:H0; [| by exists l].
    destruct (decide (r = r0)) as [-> | Hne].
    + rewrite lookup_insert_eq. exists (l0 ++ [net]). split; [done |].
      rewrite H0 in Hl. injection Hl as <-. by apply prefix_app_r.
    + rewrite lookup_insert_ne by done. by exists l.
  - intros r Hne. destruct (m !! r0); [| done]. by rewrite lookup_insert_ne.
Qed.

(** X11.  The port builders only add: after a read-port or a write-port
    build, the nets of every block and every existing port list are what
    they were, extended at the end if at all.  Nothing is removed or
    reordered. *)
Theorem ports_only_grow (self : Memory) (addr dat enable : WireVector) (st : State) :
  (forall o st', MemReadBase._build_read_port self addr st = (o, st') -> grows st st') /\
  (forall o st',
     MemBlock._build_write_port self addr dat enable st = (o, st') -> grows st st').
Proof.
  split; intros o st' Hrun.
  - destruct (build_read_port_store self addr st o st' Hrun) as (Hl & Hw & Hr & _).
    destruct (nets_after_insert st st' _ _ Hl) as [Hsame Hother].
    destruct (lists_after_append _ _ _ _ Hr) as [Hgrow _].
    split; [| split; [exact Hgrow |]].
    + intros b. destruct (decide (b = block self)) as [-> | Hb].
      * rewrite Hsame. by apply prefix_app_r.
      * by rewrite Hother.
    + intros r l Hlk. exists l. by rewrite Hw.
  - destruct (build_write_port_store self addr dat enable st o st' Hrun)
      as (Hl & Hr & Hw & _).
    destruct (nets_after_insert st st' _ _ Hl) as [Hsame Hother].
    destruct (lists_after_append _ _ _ _ Hw) as [Hgrow _].
    split; [| split; [| exact Hgrow]].
    + intros b. destruct (decide (b = block self)) as [-> | Hb].
      * rewrite Hsame. by apply prefix_app_r.
      * by rewrite Hother.
    + intros r l Hlk. exists l. by rewrite Hr.
Qed.

Lemma ports_only_grow_witness : grows ram8_state ram8_read_state.
Proof.
  exact (proj1 (ports_only_grow ram8 sig_a2 sig_d8 sig_e2 ram8_state)
           (Ret ram8_out) ram8_read_state eq_refl).
Defined.

(** X12.  The port builders are isolated.  A read-port build changes no
    write-port list, no read-port list of another memory and no net of
    another block; a write-port build changes no read-port list, no
    write-port list of another memory and no net of another block, and
    allocates no signal. *)
Theorem port_builders_are_isolated (self : Memory) (addr dat enable : WireVector)
    (st : State) :
  (forall o st', MemReadBase._build_read_port self addr st = (o, st') ->
     writeport_nets st' = writeport_nets st /\
     (forall r, r <> ref self -> readport_nets st' !! r = readport_nets st !! r) /\
     (forall b, b <> block self -> nets st' b = nets st b)) /\
  (forall o st', MemBlock._build_write_port self addr dat enable st = (o, st') ->
     readport_nets st' = readport_nets st /\
     (forall r, r <> ref self -> writeport_nets st' !! r = writeport_nets st !! r) /\
     (forall b, b <> block self -> nets st' b = nets st b) /\
     next_obj st' = next_obj st).
Proof.
  split; intros o st' Hrun.
  - destruct (build_read_port_store self addr st o st' Hrun) as (Hl & Hw & Hr & _).
    destruct (nets_after_insert st st' _ _ Hl) as [_ Hother].
    destruct (lists_after_append _ _ _ _ Hr) as [_ Hframe].
    by repeat split.
  - destruct (build_write_port_store self addr dat enable st o st' Hrun)
      as (Hl & Hr & Hw & Hn).
    destruct (nets_after_insert st st' _ _ Hl) as [_ Hother].
    destruct (lists_after_append _ _ _ _ Hw) as [_ Hframe].
    by repeat split.
Qed.

Lemma port_builders_are_isolated_witness :
  writeport_nets ram8_read_state = writeport_nets ram8_state /\
  (forall r, r <> ref ram8 ->
     readport_nets ram8_read_state !! r = readport_nets ram8_state !! r) /\
  (forall b, b <> block ram8 -> nets ram8_read_state b = nets ram8_state b).
Proof.
  exact (proj1 (port_builders_are_isolated ram8 sig_a2 sig_d8 sig_e2 ram8_state)
           (Ret ram8_out) ram8_read_state eq_refl).
Defined.

(** ** Ports and their memory *)

Lemma nets_insert_mono (st st' : State) (b0 : block_ref) (new : LogicNet) :
  logic st' = <[b0 := nets st b0 ++ [new]]> (logic st) ->
  forall b net, net ∈ nets st b -> net ∈ nets st' b.
Proof.
  intros Hl b net Hin. destruct (nets_after_insert st st' b0 new Hl) as [Hsame Hother].
  destruct (decide (b = b0)) as [-> | Hb].
  - rewrite Hsame. apply elem_of_app. by left.
  - by rewrite Hother.
Qed.

Lemma rom_new_inv (bw aw : Z) (d : RomData) (nm : option string)
    (blk : option block_ref) (st : State) (m : Memory) (st' : State) :
  returns (RomBlock.new bw aw d nm blk) st m st' -> 1 <= bw /\ 1 <= aw.
Proof.
  unfold returns, RomBlock.new, RomBlock.__init__, bind, alloc.
  destruct (MemReadBase.__init__ _ _ _ _ _ _ _) as [[m1 | e] st1] eqn:E;
    [| discriminate].
  apply base_init_inv in E as (Hbw & Haw & _). by intros _.
Qed.

(** X13.  Every entry of a memory's port lists is one of its own ports and
    is registered in its block: a read-port list holds only ["m"] nets and
    a write-port list only ["@"] nets, each with the back reference to the
    memory, and each is among the nets of the memory's block.  The
    constructors establish this and both port builders keep it, for the
    memory they are called on and for every other memory. *)
Theorem ports_belong_to_their_memory (m : Memory) :
  (forall bw aw nm blk st st',
     returns (MemBlock.new bw aw nm blk) st m st' -> own_ports st' m) /\
  (forall bw aw d nm blk st st',
     fresh_store st ->
     returns (RomBlock.new bw aw d nm blk) st m st' -> own_ports st' m) /\
  (forall self addr st o st',
     (ref self = ref m -> self = m) ->
     own_ports st m ->
     MemReadBase._build_read_port self addr st = (o, st') -> own_ports st' m) /\
  (forall self addr dat enable st o st',
     (ref self = ref m -> self = m) ->
     own_ports st m ->
     MemBlock._build_write_port self addr dat enable st = (o, st') -> own_ports st' m).
Proof.
  split; [| split; [| split]].
  - intros bw aw nm blk st st' Hnew.
    destruct (ram_new_owns_port_lists _ _ _ _ _ _ _ Hnew) as (_ & _ & Hr & Hw & _).
    split; intros l net Hl Hin.
    + rewrite Hr in Hl. injection Hl as <-. by apply elem_of_nil in Hin.
    + rewrite Hw in Hl. injection Hl as <-. by apply elem_of_nil in Hin.
  - intros bw aw d nm blk st st' Hfresh Hnew.
    destruct (rom_new_inv _ _ _ _ _ _ _ _ Hnew) as [Hbw Haw].
    destruct (rom_new_returns bw aw d nm blk st Hbw Haw)
      as (st1 & Hrun & Hr & Hw & _).
    unfold returns in *. rewrite Hnew in Hrun. injection Hrun as -> ->.
    split; intros l net Hl Hin; simpl in Hl.
    + rewrite Hr, lookup_insert_eq in Hl. injection Hl as <-.
      by apply elem_of_nil in Hin.
    + rewrite Hw in Hl. destruct (Hfresh (next_obj st)) as [_ Hnone]; [lia |].
      congruence.
  - intros self addr st o st' Hsame [Hreads Hwrites] Hrun.
    destruct (build_read_port_store self addr st o st' Hrun) as (Hl & Hw & Hr & _).
    pose proof (nets_insert_mono st st' _ _ Hl) as Hmono.
    split; intros l net Hlk Hin.
    + destruct (decide (ref self = ref m)) as [Heq | Hne].
      * specialize (Hsame Heq). subst self.
        rewrite Hr in Hlk. destruct (readport_nets st !! ref m) as [l0 |] eqn:H0.
        -- rewrite lookup_insert_eq in Hlk. injection Hlk as <-.
           apply elem_of_app in Hin as [Hin | Hin].
           ++ destruct (Hreads l0 net eq_refl Hin) as [Hshape Hreg].
              split; [exact Hshape | by apply Hmono].
           ++ apply list_elem_of_singleton in Hin as ->.
              split; [by eexists _, _ |].
              destruct (nets_after_insert st st' _ _ Hl) as [-> _].
              apply elem_of_app. right. by apply list_elem_of_singleton.
        -- rewrite H0 in Hlk. discriminate.
      * destruct (lists_after_append _ _ _ _ Hr) as [_ Hframe].
        rewrite Hframe in Hlk by done.
        destruct (Hreads l net Hlk Hin) as [Hshape Hreg].
        split; [exact Hshape | by apply Hmono].
    + rewrite Hw in Hlk. destruct (Hwrites l net Hlk Hin) as [Hshape Hreg].
      split; [exact Hshape | by apply Hmono].
  - intros self addr dat enable st o st' Hsame [Hreads Hwrites] Hrun.
    destruct (build_write_port_store self addr dat enable st o st' Hrun)
      as (Hl & Hr & Hw & _).
    pose proof (nets_insert_mono st st' _ _ Hl) as Hmono.
    split; intros l net Hlk Hin.
    + rewrite Hr in Hlk. destruct (Hreads l net Hlk Hin) as [Hshape Hreg].
      split; [exact Hshape | by apply Hmono].
    + destruct (decide (ref self = ref m)) as [Heq | Hne].
      * specialize (Hsame Heq). subst self.
        rewrite Hw in Hlk. destruct (writeport_nets st !! ref m) as [l0 |] eqn:H0.
        -- rewrite lookup_insert_eq in Hlk. injection Hlk as <-.
           apply elem_of_app in Hin as [Hin | Hin].
           ++ destruct (Hwrites l0 net eq_refl Hin) as [Hshape Hreg].
              split; [exact Hshape | by apply Hmono].
           ++ apply list_elem_of_singleton in Hin as ->.
              split; [by eexists _, _, _ |].
              destruct (nets_after_insert st st' _ _ Hl) as [-> _].
              apply elem_of_app. right. by apply list_elem_of_singleton.
        -- rewrite H0 in Hlk. discriminate.
      * destruct (lists_after_append _ _ _ _ Hw) as [_ Hframe].
        rewrite Hframe in Hlk by done.
        destruct (Hwrites l net Hlk Hin) as [Hshape Hreg].
        split; [exact Hshape | by apply Hmono].
Qed.

Lemma ports_belong_to_their_memory_witness :
  own_ports ram8_state ram8 /\ own_ports ram8_read_state ram8.
Proof.
  assert (Hnew : own_ports ram8_state ram8).
  { exact (proj1 (ports_belong_to_their_memory ram8)
             8 2 None None signals_state ram8_state eq_refl). }
  split; [exact Hnew |].
  exact (proj1 (proj2 (proj2 (ports_belong_to_their_memory ram8)))
           ram8 sig_a2 ram8_state (Ret ram8_out) ram8_read_state
           (fun _ => eq_refl) Hnew eq_refl).
Defined.

(** ** Construction that fails, and clones *)

Lemma base_init_raises_store (self : mem_ref) (c : MemClass) (bw aw : Z)
    (nm : option string) (blk : option block_ref) (st : State) :
  bw <= 0 \/ aw <= 0 ->
  exists st',
    MemReadBase.__init__ self c bw aw nm blk st =
      (Raise (PyrtlError (width_message bw aw)), st') /\
    same_memories st st'.
Proof.
  intros Hbad.
  unfold MemReadBase.__init__, bind, working_block, raise, width_message, same_memories.
  destruct nm as [n |]; simpl;
    (destruct (Z.leb_spec bw 0) as [_ | Hbw];
     [| destruct (Z.leb_spec aw 0) as [_ | Haw]; [| lia]]);
    eexists; (split; [reflexivity | by simpl]).
Qed.

(** X14.  A construction refused for its widths leaves no memory behind:
    no port list is bound, no net is added and no memory identifier is
    drawn, for each of the three classes.  The bitwidth is checked first,
    so when both widths are refused the error is the bitwidth's. *)
Theorem failed_construction_binds_nothing (bw aw : Z) (nm : option string)
    (blk : option block_ref) (d : RomData) (st : State) :
  bw <= 0 \/ aw <= 0 ->
  (exists st', MemReadBase.new bw aw nm blk st =
                 (Raise (PyrtlError (width_message bw aw)), st') /\
               same_memories st st') /\
  (exists st', MemBlock.new bw aw nm blk st =
                 (Raise (PyrtlError (width_message bw aw)), st') /\
               same_memories st st') /\
  (exists st', RomBlock.new bw aw d nm blk st =
                 (Raise (PyrtlError (width_message bw aw)), st') /\
               same_memories st st').
Proof.
  intros Hbad. split; [| split].
  - unfold MemReadBase.new, bind, alloc.
    destruct (base_init_raises_store (next_obj st) C_MemReadBase bw aw nm blk
                (set_next_obj (S (next_obj st)) st) Hbad) as (st' & -> & Hsame).
    by exists st'.
  - unfold MemBlock.new, MemBlock.__init__, bind, alloc.
    destruct (base_init_raises_store (next_obj st) C_MemBlock bw aw nm blk
                (set_next_obj (S (next_obj st)) st) Hbad) as (st' & -> & Hsame).
    by exists st'.
  - unfold RomBlock.new, RomBlock.__init__, bind, alloc.
    destruct (base_init_raises_store (next_obj st) C_RomBlock bw aw nm blk
                (set_next_obj (S (next_obj st)) st) Hbad) as (st' & -> & Hsame).
    by exists st'.
Qed.

Lemma failed_construction_binds_nothing_witness :
  exists st', MemBlock.new 0 0 None None ram8_state =
                (Raise (PyrtlError "error, bitwidth must be >= 1"), st') /\
              same_memories ram8_state st'.
Proof.
  apply (failed_construction_binds_nothing 0 0 None None DataUnsubscriptable
           ram8_state).
  lia.
Defined.

(** X15.  The ports of a clone are its own.  A clone is a new object; a
    read port built on it enters the clone's read-port list, which held
    nothing, and leaves the port lists of the original as they were. *)
Theorem clone_ports_are_its_own (self : Memory) (blk : option block_ref)
    (st : State) (rl : list LogicNet) (addr : WireVector) :
  constructed self ->
  cls self = C_MemBlock \/ cls self = C_RomBlock ->
  fresh_store st ->
  readport_nets st !! ref self = Some rl ->
  exists m st1 out st2,
    returns (make_copy self blk) st (Some m) st1 /\
    returns (MemReadBase._readaccess m addr) st1 out st2 /\
    ref m <> ref self /\
    readport_nets st2 !! ref m = Some [readport_net m addr out] /\
    readport_nets st2 !! ref self = Some rl /\
    writeport_nets st2 !! ref self = writeport_nets st !! ref self.
Proof.
  intros Hcons Hcls Hfresh Hrl.
  destruct (constructed_well_formed self Hcons) as (Hbw & Haw & Hdata).
  assert (Hold : ref self <> next_obj st).
  { intros Heq. destruct (Hfresh (ref self)) as [Hnone _]; [lia | congruence]. }
  assert (Hcopy : exists m st1,
             returns (make_copy self blk) st (Some m) st1 /\
             ref m = next_obj st /\
             readport_nets st1 = <[next_obj st := []]> (readport_nets st) /\
             writeport_nets st1 !! ref self = writeport_nets st !! ref self).
  { unfold make_copy. destruct Hcls as [Hcls | Hcls]; rewrite Hcls.
    - destruct (ram_new_returns (bitwidth self) (addrwidth self) (Some (name self))
                  (Some (match blk with None => block self | Some b => b end))
                  st Hbw Haw) as (st1 & Hnew & Hr & Hw & _).
      eexists _, st1. split.
      { unfold returns, MemBlock._make_copy, bind in *. rewrite Hnew. reflexivity. }
      split; [reflexivity | split; [exact Hr |]].
      rewrite Hw. by apply lookup_insert_ne.
    - destruct Hdata as [Hrom _]. destruct (Hrom Hcls) as [d Hd].
      destruct (rom_new_returns (bitwidth self) (addrwidth self) d (Some (name self))
                  (Some (match blk with None => block self | Some b => b end))
                  st Hbw Haw) as (st1 & Hnew & Hr & Hw & _).
      eexists _, st1. split.
      { unfold returns, RomBlock._make_copy, bind in *. rewrite Hd, Hnew. reflexivity. }
      split; [reflexivity | split; [exact Hr |]].
      by rewrite Hw. }
  destruct Hcopy as (m & st1 & Hrun & Hm & Hr1 & Hw1).
  assert (Hml : readport_nets st1 !! ref m = Some []).
  { rewrite Hr1, Hm. apply lookup_insert_eq. }
  destruct (build_read_port_returns m addr st1 [] Hml)
    as (st2 & Hread & Hr2 & Hw2 & _).
  exists m, st1, (Wire (next_obj st1) (bitwidth m) (block m)), st2.
  split; [exact Hrun | split; [exact Hread |]].
  split; [congruence |].
  split; [rewrite Hr2; apply lookup_insert_eq |].
  split.
  - rewrite Hr2, lookup_insert_ne by congruence.
    rewrite Hr1, lookup_insert_ne by congruence. exact Hrl.
  - by rewrite Hw2.
Qed.

Lemma clone_ports_are_its_own_witness :
  exists m st1 out st2,
    returns (make_copy ram8 (Some 5%nat)) ram8_read_state (Some m) st1 /\
    returns (MemReadBase._readaccess m sig_a2) st1 out st2 /\
    ref m <> ref ram8 /\
    readport_nets st2 !! ref m = Some [readport_net m sig_a2 out] /\
    readport_nets st2 !! ref ram8 = Some [readport_net ram8 sig_a2 ram8_out].
Proof.
  assert (Hfresh : fresh_store ram8_read_state).
  { exact (build_read_port_keeps_fresh ram8 sig_a2 ram8_state (Ret ram8_out)
             ram8_read_state eq_refl ram8_state_fresh). }
  destruct (clone_ports_are_its_own ram8 (Some 5%nat) ram8_read_state
              [readport_net ram8 sig_a2 ram8_out] sig_a2 ram8_constructed
              (or_introl eq_refl) Hfresh eq_refl)
    as (m & st1 & out & st2 & Hcopy & Hread & Hne & Hm & Hself & _).
  by exists m, st1, out, st2.
Defined.

(** X16.  The length of a handle is the width of the signal a read of it
    yields: whenever the read behind [mem[a]] is built, the output signal
    is as wide as [len(mem[a])] said. *)
Theorem handle_length_is_read_width (h : _MemIndexed) (st : State)
    (out : WireVector) (st' : State) :
  returns (MemReadBase._readaccess (mem h) (index h)) st out st' ->
  forall st0, returns (MemIndexed.__len__ h) st0 (len out) st0.
Proof.
  unfold returns, MemReadBase._readaccess, MemReadBase._build_read_port,
    new_WireVector, bind, alloc, ret, add_net, readport_nets_append. simpl.
  destruct (readport_nets st !! ref (mem h)); [| discriminate].
  intros [= <- _] st0. reflexivity.
Qed.

Lemma handle_length_is_read_width_witness :
  returns (MemIndexed.__len__ ram8_at_a2) empty_state (len ram8_out) empty_state.
Proof.
  exact (handle_length_is_read_width ram8_at_a2 ram8_state ram8_out ram8_read_state
           eq_refl empty_state).
Defined.
